(** * Version history of notes: undo / redo stacks and the edit routes

    A shallow embedding of [src/services/noteHistory.service.js] (and of
    its earlier revision, which snapshots on a note's first edit), and of
    the handlers of [src/routes/notes.routes.js] that create, edit, undo,
    redo, trash and restore a note.

    JavaScript strings are sequences of UTF-16 code units, a [Date] is its
    number of milliseconds, the note object that the service mutates is
    the state of a small state-and-exception monad, and the Mongo
    collection is a finite map from identifiers to notes. *)

From Stdlib Require Import ZArith NArith List Bool Lia.
From stdpp Require Import base decidable option list strings gmap.

Local Open Scope Z_scope.

(** ** Strings *)

(** A string value: its UTF-16 code units. *)
Definition jsstring := list N.

(** The code units [String.prototype.trim] strips: WhiteSpace (TAB, VT,
    FF, ZWNBSP and the space separators) and LineTerminator (LF, CR, LS,
    PS). All of them lie in the basic plane. *)
Definition isWhiteSpace (c : N) : bool :=
  ((9 <=? c) && (c <=? 13) || (c =? 32) || (c =? 160) || (c =? 5760)
   || (8192 <=? c) && (c <=? 8202) || (c =? 8232) || (c =? 8233)
   || (c =? 8239) || (c =? 8287) || (c =? 12288) || (c =? 65279))%N.

Fixpoint trimStart (s : jsstring) : jsstring :=
  match s with
  | [] => []
  | c :: r => if isWhiteSpace c then trimStart r else s
  end.

Fixpoint trimEnd (s : jsstring) : jsstring :=
  match s with
  | [] => []
  | c :: r =>
      match trimEnd r with
      | [] => if isWhiteSpace c then [] else [c]
      | r' => c :: r'
      end
  end.

(** [s.trim()] *)
Definition trim (s : jsstring) : jsstring := trimEnd (trimStart s).

(** Code units of an ASCII literal, to write examples. *)
Definition js (s : string) : jsstring :=
  map (fun a => N.of_nat (Ascii.nat_of_ascii a)) (String.list_ascii_of_string s).

(** ** Data model *)

(** [{ title, content, editedAt }], as [createSnapshot] builds it. *)
Record Snapshot := mkSnapshot {
  s_title : jsstring;
  s_content : jsstring;
  editedAt : Z
}.

(** The fields of a note document that the routes and the service read or
    write. [versions] is the undo stack; both stacks are ordered oldest
    first, their top is the last element. The identifier of a document is
    the key under which the collection holds it. *)
Record Note := mkNote {
  title : jsstring;
  content : jsstring;
  versions : list Snapshot;
  redoStack : list Snapshot;
  isDeleted : bool;
  deletedAt : option Z;
  createdAt : Z;
  updatedAt : Z
}.

Definition set_title (v : jsstring) (n : Note) : Note :=
  mkNote v (content n) (versions n) (redoStack n)
         (isDeleted n) (deletedAt n) (createdAt n) (updatedAt n).

Definition set_content (v : jsstring) (n : Note) : Note :=
  mkNote (title n) v (versions n) (redoStack n)
         (isDeleted n) (deletedAt n) (createdAt n) (updatedAt n).

Definition set_versions (v : list Snapshot) (n : Note) : Note :=
  mkNote (title n) (content n) v (redoStack n)
         (isDeleted n) (deletedAt n) (createdAt n) (updatedAt n).

Definition set_redoStack (v : list Snapshot) (n : Note) : Note :=
  mkNote (title n) (content n) (versions n) v
         (isDeleted n) (deletedAt n) (createdAt n) (updatedAt n).

Definition set_isDeleted (v : bool) (n : Note) : Note :=
  mkNote (title n) (content n) (versions n) (redoStack n)
         v (deletedAt n) (createdAt n) (updatedAt n).

Definition set_deletedAt (v : option Z) (n : Note) : Note :=
  mkNote (title n) (content n) (versions n) (redoStack n)
         (isDeleted n) v (createdAt n) (updatedAt n).

Definition set_updatedAt (v : Z) (n : Note) : Note :=
  mkNote (title n) (content n) (versions n) (redoStack n)
         (isDeleted n) (deletedAt n) (createdAt n) v.

(** The object literal [{ title, content }] handed to [applyUpdate]; an
    absent field is [undefined]. *)
Record Updates := mkUpdates {
  u_title : option jsstring;
  u_content : option jsstring
}.

(** ** The note as mutable state, with exceptions *)

(** How a call completes: it returns a value or throws an [Error] with a
    message. *)
Inductive completion (A : Type) : Type :=
  | Normal (a : A)
  | Throw (message : string).
Arguments Normal {A} a.
Arguments Throw {A} message.

(** A computation on the note object: the note it leaves behind is part of
    the result also when it throws. *)
Definition Js (A : Type) : Type := Note -> completion A * Note.

Definition ret {A} (a : A) : Js A := fun n => (Normal a, n).

Definition throw {A} (message : string) : Js A := fun n => (Throw message, n).

Definition bind {A B} (c : Js A) (k : A -> Js B) : Js B :=
  fun n =>
    match c n with
    | (Normal a, n') => k a n'
    | (Throw m, n') => (Throw m, n')
    end.

Definition getNote : Js Note := fun n => (Normal n, n).

Definition modify (f : Note -> Note) : Js unit := fun n => (Normal tt, f n).

Declare Scope js_scope.
Delimit Scope js_scope with js.
Notation "x <- c ;; k" := (bind c (fun x => k))
  (at level 100, c at next level, right associativity) : js_scope.
Notation "c ;; k" := (bind c (fun _ => k))
  (at level 100, right associativity) : js_scope.

(** The message of the [TypeError] raised by a property access on
    [undefined]; its text is the engine's, only its being thrown matters. *)
Definition TypeError : string := "TypeError".

(** ** src/services/noteHistory.service.js *)

Definition MAX_HISTORY : nat := 20.

(** [createSnapshot(note)]; [now] is the value of [new Date()]. *)
Definition createSnapshot (now : Z) (note : Note) : Snapshot :=
  {| s_title := title note; s_content := content note; editedAt := now |}.

(** [limitStack(stack)]: one [shift()] when the length exceeds the bound. *)
Definition limitStack {A} (stack : list A) : list A :=
  if (MAX_HISTORY <? length stack)%nat then tail stack else stack.

(** [updates.f !== undefined && updates.f.trim() !== note.f] *)
Definition hasChange (proposed : option jsstring) (current : jsstring) : bool :=
  match proposed with
  | Some s => bool_decide (trim s ≠ current)
  | None => false
  end.

(** [note.f = updates.f.trim()] *)
Definition assignTrimmed (set : jsstring -> Note -> Note)
    (proposed : option jsstring) : Js unit :=
  match proposed with
  | Some s => modify (set (trim s))
  | None => throw TypeError
  end.

(** [stack.pop()]: the last element, [undefined] on an empty array. *)
Definition pop (get : Note -> list Snapshot)
    (set : list Snapshot -> Note -> Note) : Js (option Snapshot) :=
  fun n => (Normal (last (get n)), set (removelast (get n)) n).

(** [note.title = s.title; note.content = s.content] for the popped [s]. *)
Definition restoreFrom (s : option Snapshot) : Js unit :=
  match s with
  | Some p => (modify (set_title (s_title p)) ;; modify (set_content (s_content p)))%js
  | None => throw TypeError
  end.

Definition NoUndo : string := "No hay cambios para deshacer".
Definition NoRedo : string := "No hay cambios para rehacer".

Definition applyUpdate (now : Z) (updates : Updates) : Js bool :=
  (note <- getNote ;;
   let hasTitleChange := hasChange (u_title updates) (title note) in
   let hasContentChange := hasChange (u_content updates) (content note) in
   if negb hasTitleChange && negb hasContentChange then ret false
   else
     modify (fun n => set_versions (versions n ++ [createSnapshot now n]) n) ;;
     modify (fun n => set_versions (limitStack (versions n)) n) ;;
     modify (set_redoStack []) ;;
     (if hasTitleChange then assignTrimmed set_title (u_title updates) else ret tt) ;;
     (if hasContentChange then assignTrimmed set_content (u_content updates) else ret tt) ;;
     ret true)%js.

Definition undo (now : Z) : Js unit :=
  (note <- getNote ;;
   if (length (versions note) =? 0)%nat then throw NoUndo
   else
     modify (fun n => set_redoStack (redoStack n ++ [createSnapshot now n]) n) ;;
     modify (fun n => set_redoStack (limitStack (redoStack n)) n) ;;
     previous <- pop versions set_versions ;;
     restoreFrom previous)%js.

Definition redo (now : Z) : Js unit :=
  (note <- getNote ;;
   if (length (redoStack note) =? 0)%nat then throw NoRedo
   else
     modify (fun n => set_versions (versions n ++ [createSnapshot now n]) n) ;;
     modify (fun n => set_versions (limitStack (versions n)) n) ;;
     next <- pop redoStack set_redoStack ;;
     restoreFrom next)%js.

(** The earlier revision of the service: [applyUpdate] also snapshots when
    the undo stack is empty, and returns nothing. [undo] and [redo] are the
    same in both revisions. *)
Module FirstEdit.

Definition applyUpdate (now : Z) (updates : Updates) : Js unit :=
  (note <- getNote ;;
   let hasTitleChange := hasChange (u_title updates) (title note) in
   let hasContentChange := hasChange (u_content updates) (content note) in
   let isFirstEdit := (length (versions note) =? 0)%nat in
   if negb hasTitleChange && negb hasContentChange && negb isFirstEdit then ret tt
   else
     modify (fun n => set_versions (versions n ++ [createSnapshot now n]) n) ;;
     modify (fun n => set_versions (limitStack (versions n)) n) ;;
     modify (set_redoStack []) ;;
     (if hasTitleChange then assignTrimmed set_title (u_title updates) else ret tt) ;;
     (if hasContentChange then assignTrimmed set_content (u_content updates) else ret tt))%js.

End FirstEdit.

(** ** Requests and responses *)

(** A field of a parsed JSON body. Numbers are the integral ones; arrays
    and objects are left out. *)
Inductive JsVal : Type :=
  | JUndefined
  | JNull
  | JBool (b : bool)
  | JNum (n : Z)
  | JStr (s : jsstring).

(** [const { title, content, lastKnownUpdate } = req.body] *)
Record Body := mkBody {
  b_title : JsVal;
  b_content : JsVal;
  b_lastKnownUpdate : JsVal
}.

Inductive Payload : Type :=
  | Message (m : string)
  | Document (n : option Note).

Record Response := mkResponse {
  status : Z;
  payload : Payload
}.

(** ToBoolean *)
Definition truthy (v : JsVal) : bool :=
  match v with
  | JUndefined | JNull => false
  | JBool b => b
  | JNum n => negb (n =? 0)
  | JStr s => negb (bool_decide (s = []))
  end.

(** [v?.trim()]: [undefined] on [null] and [undefined], a [TypeError] on a
    value that has no [trim] method. *)
Definition optTrim (v : JsVal) : completion (option jsstring) :=
  match v with
  | JUndefined | JNull => Normal None
  | JStr s => Normal (Some (trim s))
  | JBool _ | JNum _ => Throw TypeError
  end.

(** What [v !== undefined && !v.trim()] and the later [v.trim()] make of a
    body field. *)
Inductive fieldCheck : Type :=
  | FieldAbsent
  | FieldOk (s : jsstring)
  | FieldEmpty
  | FieldThrows.

Definition checkField (v : JsVal) : fieldCheck :=
  match v with
  | JUndefined => FieldAbsent
  | JStr s => if bool_decide (trim s = []) then FieldEmpty else FieldOk s
  | JNull | JBool _ | JNum _ => FieldThrows
  end.

Definition isUndefined (v : JsVal) : bool :=
  match v with JUndefined => true | _ => false end.

#[global] Instance Snapshot_eq_dec : EqDecision Snapshot.
Proof. solve_decision. Defined.

#[global] Instance Note_eq_dec : EqDecision Note.
Proof. solve_decision. Defined.

Abbreviation Db := (gmap N Note).

(** Modelled from the spec: [src/models/Note.js], the schema behind
    [Note.create] and [note.save()], is not among the sources. A document
    is created with an empty version store, not deleted, and with both
    timestamps at the time of creation. *)
Definition Note_create (now : Z) (t c : jsstring) : Note :=
  mkNote t c [] [] false None now now.

(** Modelled from the spec: [src/models/Note.js] is not among the sources.
    Saving a mutated document stores it, so that a later load reflects the
    mutation, and changes its [updatedAt] (to the time of the save); saving
    a document that equals the stored one changes nothing. The document in
    memory carries the new timestamp as well. A save is taken to succeed. *)
Definition save (stamp : Z) (id : N) (note : Note) (db : Db) : Note * Db :=
  if bool_decide (db !! id = Some note) then (note, db)
  else
    let note' := set_updatedAt stamp note in
    (note', <[id := note']> db).

Section Routes.

(** [Date.parse] on a string: [None] is [NaN]. *)
Variable Date_parse : jsstring -> option Z.

(** [new Date(v).getTime()], with [None] for [NaN]. A number goes through
    TimeClip, the other primitives through ToNumber. *)
Definition dateValue (v : JsVal) : option Z :=
  match v with
  | JUndefined => None
  | JNull => Some 0
  | JBool b => Some (if b then 1 else 0)
  | JNum n => if Z.abs n <=? 8640000000000000 then Some n else None
  | JStr s => Date_parse s
  end.

(** [lastKnownUpdate &&
     new Date(lastKnownUpdate).getTime() !== note.updatedAt.getTime()] *)
Definition staleWrite (lastKnownUpdate : JsVal) (note : Note) : bool :=
  truthy lastKnownUpdate
  && bool_decide (dateValue lastKnownUpdate ≠ Some (updatedAt note)).

(** The middleware [loadNote], followed by the handler [k]. Identifiers are
    well-formed by their type, so [validateObjectId] always calls [next]. *)
Definition loadNote (id : N) (db : Db) (k : Note -> Response * Db) : Response * Db :=
  match db !! id with
  | Some note =>
      if isDeleted note then (mkResponse 404 (Message "Nota no encontrada"), db)
      else k note
  | None => (mkResponse 404 (Message "Nota no encontrada"), db)
  end.

(** [router.post('/')]. [oid] is the identifier the driver generates, [now]
    the time of creation; [Note.create] is taken to succeed. *)
Definition postNote (oid : N) (now : Z) (body : Body) (db : Db) : Response * Db :=
  let invalid := (mkResponse 400 (Message "Título y contenido son obligatorios"), db) in
  let failed := (mkResponse 500 (Message "Error al crear la nota"), db) in
  match optTrim (b_title body) with
  | Throw _ => failed
  | Normal None => invalid
  | Normal (Some t) =>
      if bool_decide (t = []) then invalid
      else
        match optTrim (b_content body) with
        | Throw _ => failed
        | Normal None => invalid
        | Normal (Some c) =>
            if bool_decide (c = []) then invalid
            else
              let note := Note_create now t c in
              (mkResponse 201 (Document (Some note)), <[oid := note]> db)
        end
  end.

(** The part of [router.patch('/:id')] that follows the optimistic check:
    the two emptiness checks, [applyUpdate], the save and the reload. *)
Definition validateAndApply (now stamp : Z) (id : N) (note : Note) (body : Body)
    (db : Db) : Response * Db :=
  let threw := (mkResponse 500 (Message TypeError), db) in
  let apply (t c : option jsstring) :=
    match applyUpdate now (mkUpdates t c) note with
    | (Throw m, _) => (mkResponse 500 (Message m), db)
    | (Normal _, note') =>
        let db' := snd (save stamp id note' db) in
        (mkResponse 200 (Document (db' !! id)), db')
    end in
  let withContent (t : option jsstring) :=
    match checkField (b_content body) with
    | FieldThrows => threw
    | FieldEmpty => (mkResponse 400 (Message "El contenido no puede estar vacío"), db)
    | FieldAbsent => apply t None
    | FieldOk c => apply t (Some c)
    end in
  match checkField (b_title body) with
  | FieldThrows => threw
  | FieldEmpty => (mkResponse 400 (Message "El título no puede estar vacío"), db)
  | FieldAbsent => withContent None
  | FieldOk t => withContent (Some t)
  end.

(** [router.patch('/:id')] *)
Definition patchNote (now stamp : Z) (id : N) (body : Body) (db : Db) : Response * Db :=
  loadNote id db (fun note =>
    if isUndefined (b_title body) && isUndefined (b_content body) then
      (mkResponse 400 (Message "No se enviaron campos para actualizar"), db)
    else if staleWrite (b_lastKnownUpdate body) note then
      (mkResponse 409
         (Message "La nota fue modificada previamente, recarga antes de editar"), db)
    else validateAndApply now stamp id note body db).

(** The common shape of [router.patch('/:id/undo')] and of
    [router.patch('/:id/redo')]: an error of the service becomes a 400. *)
Definition historyRoute (op : Js unit) (stamp : Z) (id : N) (db : Db) : Response * Db :=
  loadNote id db (fun note =>
    match op note with
    | (Throw m, _) => (mkResponse 400 (Message m), db)
    | (Normal _, note') =>
        let db' := snd (save stamp id note' db) in
        (mkResponse 200 (Document (db' !! id)), db')
    end).

Definition undoNote (now stamp : Z) (id : N) (db : Db) : Response * Db :=
  historyRoute (undo now) stamp id db.

Definition redoNote (now stamp : Z) (id : N) (db : Db) : Response * Db :=
  historyRoute (redo now) stamp id db.

(** [router.patch('/:id/trash')] *)
Definition trashNote (now stamp : Z) (id : N) (db : Db) : Response * Db :=
  loadNote id db (fun note =>
    let note := set_isDeleted true note in
    let note := set_deletedAt (Some now) note in
    (mkResponse 200 (Message "Nota enviada a la papelera"), snd (save stamp id note db))).

(** [router.patch('/:id/restore')], which does not go through [loadNote]. *)
Definition restoreNote (stamp : Z) (id : N) (db : Db) : Response * Db :=
  match db !! id with
  | Some note =>
      if negb (isDeleted note) then
        (mkResponse 404 (Message "Nota no encontrada en la papelera"), db)
      else
        let note := set_isDeleted false note in
        let note := set_deletedAt None note in
        let '(saved, db') := save stamp id note db in
        (mkResponse 200 (Document (Some saved)), db')
  | None => (mkResponse 404 (Message "Nota no encontrada en la papelera"), db)
  end.

End Routes.

(** The value of [Date.parse] at the one date string the examples below
    send; no other string is parsed there. *)
Definition Date_parse_sample (s : jsstring) : option Z :=
  if bool_decide (s = js "1970-01-01T00:00:01.000Z") then Some 1000 else None.

(** ** Sequences of operations *)

(** [stack.push(x); limitStack(stack)], the way every push of the service
    is written. *)
Definition pushLimited {A} (stack : list A) (x : A) : list A :=
  limitStack (stack ++ [x]).

(** Pushing the elements of [xs] in order, from an empty stack. *)
Definition pushAll {A} (xs : list A) : list A :=
  fold_left pushLimited xs [].

(** A call of the service on a note, with the clock reading it sees. *)
Inductive Op : Type :=
  | Edit (now : Z) (updates : Updates)
  | Undo (now : Z)
  | Redo (now : Z).

(** The note a call leaves behind, whether it returns or throws. *)
Definition perform (n : Note) (op : Op) : Note :=
  match op with
  | Edit now updates => snd (applyUpdate now updates n)
  | Undo now => snd (undo now n)
  | Redo now => snd (redo now n)
  end.

Definition performAll (ops : list Op) (n : Note) : Note :=
  fold_left perform ops n.

(** ** Predicates *)

(** The title and the content of the note are their own trim. *)
Definition trimStable (n : Note) : Prop :=
  trim (title n) = title n ∧ trim (content n) = content n.

Definition snapshotStable (s : Snapshot) : Prop :=
  trim (s_title s) = s_title s ∧ trim (s_content s) = s_content s.

(** The note and every snapshot of its two stacks are trim-stable. *)
Definition historyStable (n : Note) : Prop :=
  trimStable n ∧ Forall snapshotStable (versions n)
  ∧ Forall snapshotStable (redoStack n).

(** Both stacks are within the bound. *)
Definition stacksBounded (n : Note) : Prop :=
  (length (versions n) ≤ MAX_HISTORY ∧ length (redoStack n) ≤ MAX_HISTORY)%nat.

(** The value an edit leaves in a field: the trimmed proposal when there
    is one. *)
Definition editedField (proposed : option jsstring) (current : jsstring) : jsstring :=
  match proposed with
  | Some s => trim s
  | None => current
  end.

(** The fields of a document the history is about. *)
Definition historyState (n : Note)
    : jsstring * jsstring * list Snapshot * list Snapshot :=
  (title n, content n, versions n, redoStack n).

(** A request on the bin: [PATCH /:id/trash] or [PATCH /:id/restore]. *)
Inductive BinRequest : Type :=
  | Trash (now stamp : Z) (id : N)
  | Restore (stamp : Z) (id : N).

(** The collection after a request on the bin. *)
Definition serveBin (db : Db) (r : BinRequest) : Db :=
  match r with
  | Trash now stamp id => snd (trashNote now stamp id db)
  | Restore stamp id => snd (restoreNote stamp id db)
  end.

Definition serveBinAll (reqs : list BinRequest) (db : Db) : Db :=
  fold_left serveBin reqs db.

(** ** Sample values *)

(** The note of the test "Flujo básico undo → redo", created at time 1000. *)
Definition noteA : Note := Note_create 1000 (js "A") (js "1").

(** [{ title: 'B' }] *)
Definition titleB : Updates := mkUpdates (Some (js "B")) None.

(** [{ title: ' A ', content: '1' }]: the values of [noteA], up to trimming. *)
Definition sameA : Updates := mkUpdates (Some (js " A ")) (Some (js "1")).

(** [noteA] after the edit [titleB] and one undo: its redo stack holds one
    snapshot. *)
Definition noteUndone : Note :=
  snd (undo 3000 (snd (applyUpdate 2000 titleB noteA))).

(** A collection that holds [noteA] under the identifier 7. *)
Definition sampleDb : Db := {[ 7%N := noteA ]}.

(** [{ title: 'B' }] as a request body, without and with a
    [lastKnownUpdate]. *)
Definition bodyB : Body := mkBody (JStr (js "B")) JUndefined JUndefined.

Definition bodyB_at (lastKnownUpdate : JsVal) : Body :=
  mkBody (JStr (js "B")) JUndefined lastKnownUpdate.

(** The date string of time 1000, the [updatedAt] of [noteA]. *)
Definition date1000 : JsVal := JStr (js "1970-01-01T00:00:01.000Z").

(** [sampleDb] after a first edit of the note at time 2000, saved at 2500. *)
Definition editedDb : Db :=
  snd (patchNote Date_parse_sample 2000 2500 7 bodyB sampleDb).

(** The stored note of [editedDb]. *)
Definition noteB : Note :=
  set_updatedAt 2500 (snd (applyUpdate 2000 titleB noteA)).

(** A creation request whose title needs trimming. *)
Definition bodyCreate : Body := mkBody (JStr (js " A ")) (JStr (js "1")) JUndefined.

(** ** The other routes *)

(** The reply of a route whose body is not a note: a value with its status,
    or a message with its status. *)
Inductive Reply (A : Type) : Type :=
  | Answer (code : Z) (value : A)
  | Refusal (code : Z) (m : string).
Arguments Answer {A} code value.
Arguments Refusal {A} code m.

(** The JSON of [GET /:id/history]. *)
Record HistoryInfo := mkHistoryInfo {
  canUndo : bool;
  canRedo : bool;
  undoCount : nat;
  redoCount : nat;
  lastEditedAt : Z
}.

(** [router.get('/:id/history')], behind [loadNote]. *)
Definition getHistory (id : N) (db : Db) : Reply HistoryInfo :=
  match db !! id with
  | Some note =>
      if isDeleted note then Refusal 404 "Nota no encontrada"
      else
        Answer 200
          {| canUndo := (0 <? length (versions note))%nat;
             canRedo := (0 <? length (redoStack note))%nat;
             undoCount := length (versions note);
             redoCount := length (redoStack note);
             lastEditedAt := updatedAt note |}
  | None => Refusal 404 "Nota no encontrada"
  end.

(** [router.delete('/:id/permanent')]: [findByIdAndDelete], which does not
    look at [isDeleted]. *)
Definition deletePermanent (id : N) (db : Db) : Response * Db :=
  match db !! id with
  | Some _ =>
      (mkResponse 200 (Message "Nota eliminada permanentemente"), delete id db)
  | None => (mkResponse 404 (Message "Nota no encontrada"), db)
  end.

(** A request on one of the routes that write. *)
Inductive Request : Type :=
  | POST (oid : N) (now : Z) (body : Body)
  | PATCH (now stamp : Z) (id : N) (body : Body)
  | PATCH_undo (now stamp : Z) (id : N)
  | PATCH_redo (now stamp : Z) (id : N)
  | PATCH_trash (now stamp : Z) (id : N)
  | PATCH_restore (stamp : Z) (id : N)
  | DELETE_permanent (id : N).

(** The document a request is about. *)
Definition target (r : Request) : N :=
  match r with
  | POST oid _ _ => oid
  | PATCH _ _ id _ | PATCH_undo _ _ id | PATCH_redo _ _ id
  | PATCH_trash _ _ id | PATCH_restore _ id | DELETE_permanent id => id
  end.

(** The requests whose route goes through [loadNote]. *)
Definition throughLoadNote (r : Request) : bool :=
  match r with
  | PATCH _ _ _ _ | PATCH_undo _ _ _ | PATCH_redo _ _ _ | PATCH_trash _ _ _ => true
  | POST _ _ _ | PATCH_restore _ _ | DELETE_permanent _ => false
  end.

(** The requests that name a stored document, all but the creation. *)
Definition namesDocument (r : Request) : bool :=
  match r with
  | POST _ _ _ => false
  | _ => true
  end.

(** The router: [P] is [Date.parse]. *)
Definition serve (P : jsstring → option Z) (db : Db) (r : Request) : Response * Db :=
  match r with
  | POST oid now body => postNote oid now body db
  | PATCH now stamp id body => patchNote P now stamp id body db
  | PATCH_undo now stamp id => undoNote now stamp id db
  | PATCH_redo now stamp id => redoNote now stamp id db
  | PATCH_trash now stamp id => trashNote now stamp id db
  | PATCH_restore stamp id => restoreNote stamp id db
  | DELETE_permanent id => deletePermanent id db
  end.

(** The collection after a sequence of requests. *)
Definition serveAll (P : jsstring → option Z) (reqs : list Request) (db : Db) : Db :=
  fold_left (λ db r, snd (serve P db r)) reqs db.

(** ** More predicates *)

(** A snapshot without its time. *)
Definition plain (s : Snapshot) : jsstring * jsstring := (s_title s, s_content s).

(** The title, the content and the two stacks of a note, times left out. *)
Definition contentView (n : Note)
    : jsstring * jsstring * list (jsstring * jsstring) * list (jsstring * jsstring) :=
  (title n, content n, map plain (versions n), map plain (redoStack n)).

(** The two stacks together are within the bound. *)
Definition stacksShareBound (n : Note) : Prop :=
  (length (versions n) + length (redoStack n) ≤ MAX_HISTORY)%nat.

Definition snapshotFilled (s : Snapshot) : Prop :=
  s_title s ≠ [] ∧ s_content s ≠ [].

(** Neither the note nor a snapshot of its stacks has an empty title or
    content. *)
Definition filled (n : Note) : Prop :=
  title n ≠ [] ∧ content n ≠ []
  ∧ Forall snapshotFilled (versions n) ∧ Forall snapshotFilled (redoStack n).

(** The two marks of the bin agree: a note is deleted exactly when it has
    a deletion date. *)
Definition binConsistent (n : Note) : Prop :=
  isDeleted n = true ↔ deletedAt n ≠ None.

(** What the routes keep true of every stored note. *)
Definition sound (n : Note) : Prop :=
  historyStable n ∧ filled n ∧ stacksShareBound n ∧ binConsistent n.

(** What [undo] does to the view of a note. *)
Definition undoView
    (v : jsstring * jsstring * list (jsstring * jsstring) * list (jsstring * jsstring))
    : jsstring * jsstring * list (jsstring * jsstring) * list (jsstring * jsstring) :=
  let '(t, c, vs, rs) := v in
  match last vs with
  | None => v
  | Some p => (fst p, snd p, removelast vs, limitStack (rs ++ [(t, c)]))
  end.

(** What [redo] does to the view of a note. *)
Definition redoView
    (v : jsstring * jsstring * list (jsstring * jsstring) * list (jsstring * jsstring))
    : jsstring * jsstring * list (jsstring * jsstring) * list (jsstring * jsstring) :=
  let '(t, c, vs, rs) := v in
  match last rs with
  | None => v
  | Some p => (fst p, snd p, limitStack (vs ++ [(t, c)]), removelast rs)
  end.

(** The snapshots that the edits of [es], run in order from [n], push: one
    for every call that returns [true], of the note that call finds. *)
Fixpoint editSnapshots (es : list (Z * Updates)) (n : Note) : list Snapshot :=
  match es with
  | [] => []
  | (now, u) :: es =>
      match fst (applyUpdate now u n) with
      | Normal true => createSnapshot now n :: editSnapshots es (snd (applyUpdate now u n))
      | _ => editSnapshots es (snd (applyUpdate now u n))
      end
  end.

(** A note with a full undo stack and one undone edit cannot be reached by
    the service from a created note; it is used to show what the bound of
    [stacksShareBound] is for. *)
Definition crowdedNote : Note :=
  mkNote (js "A") (js "1")
    (map (λ k, mkSnapshot (js "old") (js "1") (Z.of_nat k)) (seq 1 20))
    (map (λ k, mkSnapshot (js "new") (js "1") (Z.of_nat k)) (seq 1 20))
    false None 1000 1000.

(** * Properties *)

(** ** Trimming *)

Lemma trimStart_head (s : jsstring) :
  trimStart s = [] ∨ ∃ c r, trimStart s = c :: r ∧ isWhiteSpace c = false.
Proof.
  induction s as [|c r IH]; simpl; [by left|].
  destruct (isWhiteSpace c) eqn:Hc; [exact IH|].
  right. by exists c, r.
Qed.

Lemma trimEnd_cons_keep (c : N) (r : jsstring) :
  isWhiteSpace c = false → ∃ r', trimEnd (c :: r) = c :: r'.
Proof.
  intros Hc. simpl. destruct (trimEnd r) as [|x r'].
  - rewrite Hc. by exists [].
  - by exists (x :: r').
Qed.

Lemma trimEnd_idem (s : jsstring) : trimEnd (trimEnd s) = trimEnd s.
Proof.
  induction s as [|c r IH]; [done|].
  simpl. destruct (trimEnd r) as [|x r'] eqn:Hr.
  - destruct (isWhiteSpace c) eqn:Hc; [done|]. simpl. by rewrite Hc.
  - change (trimEnd (c :: x :: r')) with
      (match trimEnd (x :: r') with
       | [] => if isWhiteSpace c then [] else [c]
       | r'' => c :: r''
       end).
    by rewrite IH.
Qed.

Lemma trimStart_trimEnd (s : jsstring) :
  trimStart (trimEnd (trimStart s)) = trimEnd (trimStart s).
Proof.
  destruct (trimStart_head s) as [-> | (c & r & -> & Hc)]; [done|].
  destruct (trimEnd_cons_keep c r Hc) as [r' ->].
  simpl. by rewrite Hc.
Qed.

Lemma trim_idem (s : jsstring) : trim (trim s) = trim s.
Proof. unfold trim. by rewrite trimStart_trimEnd, trimEnd_idem. Qed.

Example trim_sample : trim (js "  a b  ") = js "a b" ∧ trim [9; 160; 8232]%N = [].
Proof. split; reflexivity. Qed.

(** ** The bounded stacks *)

Lemma limitStack_snoc {A} (l : list A) (x : A) :
  ∃ l', limitStack (l ++ [x]) = l' ++ [x] ∧ (l' = l ∨ l' = tail l).
Proof.
  unfold limitStack.
  destruct (MAX_HISTORY <? length (l ++ [x]))%nat eqn:Hlt.
  - destruct l as [|a l]; [discriminate|].
    exists l. split; [done | by right].
  - exists l. split; [done | by left].
Qed.

Lemma limitStack_length {A} (l : list A) :
  (length l ≤ S MAX_HISTORY → length (limitStack l) ≤ MAX_HISTORY)%nat.
Proof.
  unfold limitStack. intros Hl.
  destruct (Nat.ltb_spec MAX_HISTORY (length l)) as [Hlt|Hge]; [|lia].
  destruct l; simpl in *; lia.
Qed.

Lemma limitStack_Forall {A} (P : A → Prop) (l : list A) :
  Forall P l → Forall P (limitStack l).
Proof.
  unfold limitStack. intros Hl.
  destruct (MAX_HISTORY <? length l)%nat; [|done].
  destruct l; [done|]. by inversion Hl.
Qed.

(** ** What each call of the service does *)

Lemma applyUpdate_unchanged (now : Z) (u : Updates) (n : Note) :
  hasChange (u_title u) (title n) = false →
  hasChange (u_content u) (content n) = false →
  applyUpdate now u n = (Normal false, n).
Proof.
  intros Ht Hc. unfold applyUpdate, bind, getNote. simpl.
  by rewrite Ht, Hc.
Qed.

Lemma applyUpdate_changed (now : Z) (u : Updates) (n : Note) :
  hasChange (u_title u) (title n) || hasChange (u_content u) (content n) = true →
  applyUpdate now u n =
    (Normal true,
     mkNote
       (editedField (u_title u) (title n))
       (editedField (u_content u) (content n))
       (limitStack (versions n ++ [createSnapshot now n])) []
       (isDeleted n) (deletedAt n) (createdAt n) (updatedAt n)).
Proof.
  intros H. unfold applyUpdate, bind, getNote. simpl.
  destruct (hasChange (u_title u) (title n)) eqn:Ht;
    destruct (hasChange (u_content u) (content n)) eqn:Hc;
    try discriminate; simpl;
    destruct u as [[t|] [c|]]; simpl in *; try discriminate;
    unfold modify, ret, set_title, set_content; simpl;
    try (apply bool_decide_eq_false in Ht; apply dec_stable in Ht);
    try (apply bool_decide_eq_false in Hc; apply dec_stable in Hc);
    congruence.
Qed.

Lemma undo_empty (now : Z) (n : Note) :
  versions n = [] → undo now n = (Throw NoUndo, n).
Proof. intros H. unfold undo, bind, getNote. simpl. by rewrite H. Qed.

Lemma undo_top (now : Z) (n : Note) (l : list Snapshot) (p : Snapshot) :
  versions n = l ++ [p] →
  undo now n =
    (Normal tt,
     mkNote (s_title p) (s_content p) l
       (limitStack (redoStack n ++ [createSnapshot now n]))
       (isDeleted n) (deletedAt n) (createdAt n) (updatedAt n)).
Proof.
  intros H. unfold undo, bind, getNote, pop, modify. simpl.
  rewrite H, length_app. simpl.
  replace (length l + 1 =? 0)%nat with false by (symmetry; apply Nat.eqb_neq; lia).
  simpl. by rewrite H, last_snoc, removelast_last.
Qed.

Lemma redo_empty (now : Z) (n : Note) :
  redoStack n = [] → redo now n = (Throw NoRedo, n).
Proof. intros H. unfold redo, bind, getNote. simpl. by rewrite H. Qed.

Lemma redo_top (now : Z) (n : Note) (l : list Snapshot) (p : Snapshot) :
  redoStack n = l ++ [p] →
  redo now n =
    (Normal tt,
     mkNote (s_title p) (s_content p)
       (limitStack (versions n ++ [createSnapshot now n])) l
       (isDeleted n) (deletedAt n) (createdAt n) (updatedAt n)).
Proof.
  intros H. unfold redo, bind, getNote, pop, modify. simpl.
  rewrite H, length_app. simpl.
  replace (length l + 1 =? 0)%nat with false by (symmetry; apply Nat.eqb_neq; lia).
  simpl. by rewrite H, last_snoc, removelast_last.
Qed.

Lemma nonempty_snoc {A} (l : list A) : l ≠ [] → ∃ l' x, l = l' ++ [x].
Proof.
  intros H. destruct (exists_last H) as (l' & x & ->). by exists l', x.
Qed.

Lemma hasChange_false_iff (proposed : option jsstring) (current : jsstring) :
  hasChange proposed current = false ↔ ∀ s, proposed = Some s → trim s = current.
Proof.
  destruct proposed as [s|]; simpl.
  - rewrite bool_decide_eq_false. split.
    + intros H s' [= <-]. by apply dec_stable.
    + intros H Hne. apply Hne. by apply H.
  - split; [by intros _ s [=] | done].
Qed.

Lemma applyUpdate_cases (now : Z) (u : Updates) (n : Note) :
  (hasChange (u_title u) (title n) || hasChange (u_content u) (content n) = false
   ∧ applyUpdate now u n = (Normal false, n))
  ∨ (hasChange (u_title u) (title n) || hasChange (u_content u) (content n) = true
     ∧ fst (applyUpdate now u n) = Normal true).
Proof.
  destruct (hasChange (u_title u) (title n) || hasChange (u_content u) (content n))
    eqn:H.
  - right. split; [done|]. by rewrite applyUpdate_changed.
  - left. split; [done|]. apply orb_false_elim in H as [Ht Hc].
    by apply applyUpdate_unchanged.
Qed.

(** ** The claims *)

(** C1. Undo/redo round trip: when an edit changes the title or the content
    of a note [S0] and yields [S1], the edit, an undo and a redo all
    succeed; after the undo the title and the content are those of [S0],
    after the redo they are those of [S1]. *)
Theorem undo_redo_round_trip (t0 t1 t2 : Z) (u : Updates) (S0 : Note) :
  hasChange (u_title u) (title S0) || hasChange (u_content u) (content S0) = true →
  ∃ S1 S2 S3,
    applyUpdate t0 u S0 = (Normal true, S1)
    ∧ undo t1 S1 = (Normal tt, S2)
    ∧ redo t2 S2 = (Normal tt, S3)
    ∧ title S2 = title S0 ∧ content S2 = content S0
    ∧ title S3 = title S1 ∧ content S3 = content S1.
Proof.
  intros Hchg.
  destruct (limitStack_snoc (versions S0) (createSnapshot t0 S0)) as (l & Hl & _).
  eexists. eexists. eexists.
  split; [by apply applyUpdate_changed|].
  split; [by apply (undo_top _ _ l (createSnapshot t0 S0))|].
  split.
  - eapply (redo_top _ _ []). reflexivity.
  - done.
Qed.

Lemma undo_redo_round_trip_witness :
  ∃ S1 S2 S3,
    applyUpdate 2000 titleB noteA = (Normal true, S1)
    ∧ undo 3000 S1 = (Normal tt, S2)
    ∧ redo 4000 S2 = (Normal tt, S3)
    ∧ title S2 = title noteA ∧ content S2 = content noteA
    ∧ title S3 = title S1 ∧ content S3 = content S1.
Proof. apply (undo_redo_round_trip 2000 3000 4000 titleB noteA). reflexivity. Defined.

(** C2. Redo invalidation: whatever the redo stack held, after an
    [applyUpdate] that returns [true] the redo stack is empty. *)
Theorem redo_invalidation (now : Z) (u : Updates) (n : Note) :
  fst (applyUpdate now u n) = Normal true →
  redoStack (snd (applyUpdate now u n)) = [].
Proof.
  intros Hret.
  destruct (applyUpdate_cases now u n) as [[_ Heq] | [Hchg _]].
  - rewrite Heq in Hret. discriminate.
  - by rewrite applyUpdate_changed.
Qed.

Lemma redo_invalidation_witness :
  redoStack noteUndone ≠ []
  ∧ redoStack (snd (applyUpdate 5000 titleB noteUndone)) = [].
Proof.
  split; [discriminate|].
  apply (redo_invalidation 5000 titleB noteUndone). reflexivity.
Defined.

(** C4. Empty history: [undo] throws exactly when the undo stack is empty,
    [redo] exactly when the redo stack is empty; the error is then the
    "no changes" one of that operation and the note is left as it was. *)
Theorem empty_history_failure (now : Z) (n : Note) :
  ((∃ m, fst (undo now n) = Throw m) ↔ versions n = [])
  ∧ ((∃ m, fst (undo now n) = Throw m) ↔ undo now n = (Throw NoUndo, n))
  ∧ ((∃ m, fst (redo now n) = Throw m) ↔ redoStack n = [])
  ∧ ((∃ m, fst (redo now n) = Throw m) ↔ redo now n = (Throw NoRedo, n)).
Proof.
  assert (Hu : versions n = [] ∨ ∃ l p, versions n = l ++ [p]).
  { destruct (decide (versions n = [])) as [|Hne]; [by left|].
    right. by apply nonempty_snoc. }
  assert (Hr : redoStack n = [] ∨ ∃ l p, redoStack n = l ++ [p]).
  { destruct (decide (redoStack n = [])) as [|Hne]; [by left|].
    right. by apply nonempty_snoc. }
  repeat split.
  - intros [m Hm]. destruct Hu as [|(l & p & Hv)]; [done|].
    by rewrite (undo_top _ _ _ _ Hv) in Hm.
  - intros Hv. exists NoUndo. by rewrite undo_empty.
  - intros [m Hm]. destruct Hu as [Hv|(l & p & Hv)]; [by apply undo_empty|].
    by rewrite (undo_top _ _ _ _ Hv) in Hm.
  - intros ->. by exists NoUndo.
  - intros [m Hm]. destruct Hr as [|(l & p & Hv)]; [done|].
    by rewrite (redo_top _ _ _ _ Hv) in Hm.
  - intros Hv. exists NoRedo. by rewrite redo_empty.
  - intros [m Hm]. destruct Hr as [Hv|(l & p & Hv)]; [by apply redo_empty|].
    by rewrite (redo_top _ _ _ _ Hv) in Hm.
  - intros ->. by exists NoRedo.
Qed.

(** C6. No-op edit: when every proposed field equals, once trimmed, the
    current value of the note, [applyUpdate] returns [false] and the note
    (fields and both stacks) is what it was. *)
Theorem noop_edit (now : Z) (u : Updates) (n : Note) :
  (∀ t, u_title u = Some t → trim t = title n) →
  (∀ c, u_content u = Some c → trim c = content n) →
  applyUpdate now u n = (Normal false, n).
Proof.
  intros Ht Hc.
  apply applyUpdate_unchanged; by apply hasChange_false_iff.
Qed.

Lemma noop_edit_witness : applyUpdate 2000 sameA noteA = (Normal false, noteA).
Proof.
  apply (noop_edit 2000 sameA noteA).
  - intros t [= <-]. reflexivity.
  - intros c [= <-]. reflexivity.
Defined.

Lemma tail_drop {A} (l : list A) (k : nat) : tail (drop k l) = drop (S k) l.
Proof.
  revert k. induction l as [|a l IH]; intros k.
  - by rewrite !drop_nil.
  - destruct k as [|k]; [by rewrite drop_0 | apply IH].
Qed.

Lemma pushAll_snoc {A} (xs : list A) (x : A) :
  pushAll (xs ++ [x]) = pushLimited (pushAll xs) x.
Proof. unfold pushAll. by rewrite fold_left_app. Qed.

Lemma pushAll_recent {A} (xs : list A) :
  pushAll xs = drop (length xs - MAX_HISTORY) xs.
Proof.
  induction xs as [|x xs IH] using rev_ind; [done|].
  rewrite pushAll_snoc, IH, length_app. simpl.
  unfold pushLimited, limitStack.
  rewrite length_app, length_drop. simpl.
  destruct (Nat.ltb_spec MAX_HISTORY (length xs - (length xs - MAX_HISTORY) + 1)%nat)
    as [Hlt|Hge].
  - assert (Hk : (length xs - MAX_HISTORY < length xs)%nat) by (unfold MAX_HISTORY in *; lia).
    rewrite <- drop_app_le by lia. rewrite tail_drop. f_equal. lia.
  - assert (Hk : (length xs < MAX_HISTORY)%nat) by (unfold MAX_HISTORY in *; lia).
    replace (length xs - MAX_HISTORY)%nat with 0%nat by lia.
    replace (length xs + 1 - MAX_HISTORY)%nat with 0%nat by lia.
    by rewrite !drop_0.
Qed.

(** C3. Bounded stacks with FIFO eviction: after any sequence of pushes
    onto an empty stack (hence after each push of it) the stack holds at
    most 20 elements, and they are the most recent pushed ones, in the order
    of the pushes; 21 pushes leave the 2nd to the 21st. *)
Theorem bounded_fifo_stack {A} (xs : list A) :
  (length (pushAll xs) ≤ 20)%nat
  ∧ pushAll xs = drop (length xs - 20) xs
  ∧ (length xs = 21%nat → pushAll xs = tail xs).
Proof.
  pose proof (pushAll_recent xs) as H. unfold MAX_HISTORY in H.
  split; [|split].
  - rewrite H, length_drop. lia.
  - exact H.
  - intros Hlen. rewrite H, Hlen. simpl. by destruct xs.
Qed.

(** Pushing 1, ..., 21 leaves 2, ..., 21. *)
Example push_twenty_one : pushAll (seq 1 21) = seq 2 20.
Proof. reflexivity. Qed.

(** Every push of the service goes through [pushLimited]. *)
Lemma applyUpdate_pushes (now : Z) (u : Updates) (n : Note) :
  fst (applyUpdate now u n) = Normal true →
  versions (snd (applyUpdate now u n)) = pushLimited (versions n) (createSnapshot now n).
Proof.
  intros Hret.
  destruct (applyUpdate_cases now u n) as [[_ Heq] | [Hchg _]].
  - rewrite Heq in Hret. discriminate.
  - by rewrite applyUpdate_changed.
Qed.

(** The bound of the spec's "bounded history": calls of the service keep
    both stacks within [MAX_HISTORY]. *)
Lemma perform_bounded (n : Note) (op : Op) :
  stacksBounded n → stacksBounded (perform n op).
Proof.
  intros [Hv Hr]. unfold stacksBounded.
  assert (Hpush : ∀ (stack : list Snapshot) x,
    (length stack ≤ MAX_HISTORY → length (limitStack (stack ++ [x])) ≤ MAX_HISTORY)%nat).
  { intros stack x Hs. apply limitStack_length. rewrite length_app. simpl. lia. }
  destruct op as [now u | now | now]; simpl.
  - destruct (applyUpdate_cases now u n) as [[_ ->] | [Hchg _]]; [done|].
    rewrite applyUpdate_changed by done. simpl. split; [by apply Hpush | lia].
  - destruct (decide (versions n = [])) as [He|Hne].
    + by rewrite undo_empty.
    + destruct (nonempty_snoc _ Hne) as (l & p & Hl).
      rewrite (undo_top _ _ _ _ Hl). simpl.
      rewrite Hl, length_app in Hv. simpl in Hv.
      split; [lia | by apply Hpush].
  - destruct (decide (redoStack n = [])) as [He|Hne].
    + by rewrite redo_empty.
    + destruct (nonempty_snoc _ Hne) as (l & p & Hl).
      rewrite (redo_top _ _ _ _ Hl). simpl.
      rewrite Hl, length_app in Hr. simpl in Hr.
      split; [by apply Hpush | lia].
Qed.

Lemma performAll_bounded (ops : list Op) (n : Note) :
  stacksBounded n → stacksBounded (performAll ops n).
Proof.
  unfold performAll. revert n.
  induction ops as [|op ops IH]; intros n Hn; [done|].
  simpl. by apply IH, perform_bounded.
Qed.

(** The test "Multiples undo en cadena": three edits and two undos leave
    one snapshot to undo, two to redo, and the title of the first edit. *)
Example chained_undo :
  let n := performAll
             [Edit 2000 (mkUpdates (Some (js "v2")) (Some (js "c1")));
              Edit 3000 (mkUpdates (Some (js "v3")) (Some (js "c1")));
              Edit 4000 (mkUpdates (Some (js "v4")) (Some (js "c1")));
              Undo 5000; Undo 6000]
             (Note_create 1000 (js "v1") (js "c1")) in
  length (versions n) = 1%nat ∧ length (redoStack n) = 2%nat ∧ title n = js "v2".
Proof. repeat split. Qed.

(** ** The two revisions of [applyUpdate] *)

Lemma FirstEdit_changed (now : Z) (u : Updates) (n : Note) :
  hasChange (u_title u) (title n) || hasChange (u_content u) (content n) = true →
  FirstEdit.applyUpdate now u n =
    (Normal tt,
     mkNote
       (editedField (u_title u) (title n))
       (editedField (u_content u) (content n))
       (limitStack (versions n ++ [createSnapshot now n])) []
       (isDeleted n) (deletedAt n) (createdAt n) (updatedAt n)).
Proof.
  intros H. unfold FirstEdit.applyUpdate, bind, getNote. simpl.
  destruct (hasChange (u_title u) (title n)) eqn:Ht;
    destruct (hasChange (u_content u) (content n)) eqn:Hc;
    try discriminate; simpl;
    destruct u as [[t|] [c|]]; simpl in *; try discriminate;
    unfold modify, ret, set_title, set_content; simpl;
    try (apply bool_decide_eq_false in Ht; apply dec_stable in Ht);
    try (apply bool_decide_eq_false in Hc; apply dec_stable in Hc);
    congruence.
Qed.

Lemma FirstEdit_unchanged (now : Z) (u : Updates) (n : Note) :
  hasChange (u_title u) (title n) || hasChange (u_content u) (content n) = false →
  FirstEdit.applyUpdate now u n =
    (Normal tt,
     if (length (versions n) =? 0)%nat then
       mkNote (title n) (content n)
         (limitStack (versions n ++ [createSnapshot now n])) []
         (isDeleted n) (deletedAt n) (createdAt n) (updatedAt n)
     else n).
Proof.
  intros H. apply orb_false_elim in H as [Ht Hc].
  unfold FirstEdit.applyUpdate, bind, getNote. simpl.
  rewrite Ht, Hc. simpl.
  by destruct (length (versions n) =? 0)%nat.
Qed.

(** C8. The two revisions of [applyUpdate] leave the same title, content,
    undo stack and redo stack exactly when the undo stack is not empty or
    a field changes; on a first edit that changes nothing the earlier
    revision pushes one snapshot and empties the redo stack, and the later
    one leaves the note as it was. *)
Theorem revisions_differ_on_first_edit (now : Z) (u : Updates) (n : Note) :
  (historyState (snd (FirstEdit.applyUpdate now u n))
     = historyState (snd (applyUpdate now u n))
   ↔ versions n ≠ []
     ∨ hasChange (u_title u) (title n) || hasChange (u_content u) (content n) = true)
  ∧ (versions n = [] →
     hasChange (u_title u) (title n) || hasChange (u_content u) (content n) = false →
     snd (applyUpdate now u n) = n
     ∧ historyState (snd (FirstEdit.applyUpdate now u n))
       = (title n, content n, [createSnapshot now n], [])).
Proof.
  destruct (hasChange (u_title u) (title n) || hasChange (u_content u) (content n))
    eqn:Hchg.
  - rewrite FirstEdit_changed, applyUpdate_changed by done.
    split; [|done]. split; [by right | done].
  - pose proof Hchg as Hchg'. apply orb_false_elim in Hchg' as [Ht Hc].
    rewrite FirstEdit_unchanged, applyUpdate_unchanged by done.
    destruct (versions n) as [|p l] eqn:Hv; simpl.
    + split.
      * split; [|by intros [?|?]].
        unfold historyState. simpl. intros [= H1 H2].
        rewrite Hv in H1. discriminate.
      * intros _ _. split; [done|]. by unfold historyState.
    + split; [|done]. split; [by left | done].
Qed.

(** The first edit of [noteA] with its own values: the earlier revision
    leaves one snapshot, the later one leaves the note alone. *)
Example first_edit_on_sample :
  applyUpdate 2000 sameA noteA = (Normal false, noteA)
  ∧ historyState (snd (FirstEdit.applyUpdate 2000 sameA noteA))
    = (js "A", js "1", [mkSnapshot (js "A") (js "1") 2000], []).
Proof. split; reflexivity. Qed.

(** ** Saving and the routes *)

Lemma save_lookup (stamp : Z) (id : N) (n : Note) (db : Db) :
  snd (save stamp id n db) !! id = Some (fst (save stamp id n db)).
Proof.
  unfold save. case_bool_decide as H; simpl; [done|].
  by rewrite lookup_insert_eq.
Qed.


Lemma save_modified (stamp : Z) (id : N) (n : Note) (db : Db) :
  db !! id ≠ Some n → fst (save stamp id n db) = set_updatedAt stamp n.
Proof. intros H. unfold save. by rewrite bool_decide_eq_false_2. Qed.

Lemma save_result (stamp : Z) (id : N) (n : Note) (db : Db) :
  fst (save stamp id n db) = n
  ∨ fst (save stamp id n db) = set_updatedAt stamp n.
Proof. unfold save. case_bool_decide; simpl; [by left | by right]. Qed.

Lemma historyRoute_ok (op : Js unit) (stamp : Z) (id : N) (db : Db) :
  status (fst (historyRoute op stamp id db)) = 200 →
  ∃ note note',
    db !! id = Some note ∧ isDeleted note = false
    ∧ op note = (Normal tt, note')
    ∧ snd (historyRoute op stamp id db) = snd (save stamp id note' db).
Proof.
  unfold historyRoute, loadNote.
  destruct (db !! id) as [note|]; [|discriminate].
  destruct (isDeleted note) eqn:Hd; [discriminate|].
  destruct (op note) as [[[]|m] note'] eqn:Hop; simpl; [|discriminate].
  intros _. by exists note, note'.
Qed.

Lemma snoc_ne {A} (l : list A) (x : A) : l ++ [x] ≠ l.
Proof.
  intros H. apply (f_equal length) in H. rewrite length_app in H. simpl in H. lia.
Qed.

Lemma undoNote_stamps (now stamp : Z) (id : N) (db : Db) :
  status (fst (undoNote now stamp id db)) = 200 →
  ∃ n', snd (undoNote now stamp id db) !! id = Some n' ∧ updatedAt n' = stamp.
Proof.
  intros H. unfold undoNote in *.
  destruct (historyRoute_ok _ _ _ _ H) as (note & note' & Hl & _ & Hop & ->).
  rewrite save_lookup. eexists. split; [done|].
  rewrite save_modified; [done|].
  rewrite Hl. intros [= ->].
  destruct (decide (versions note' = [])) as [Hv|Hv].
  - by rewrite undo_empty in Hop.
  - destruct (nonempty_snoc _ Hv) as (l & p & Hv').
    rewrite (undo_top _ _ _ _ Hv') in Hop. injection Hop as Hop.
    apply (f_equal versions) in Hop. simpl in Hop.
    rewrite Hv' in Hop. by eapply snoc_ne.
Qed.

Lemma redoNote_stamps (now stamp : Z) (id : N) (db : Db) :
  status (fst (redoNote now stamp id db)) = 200 →
  ∃ n', snd (redoNote now stamp id db) !! id = Some n' ∧ updatedAt n' = stamp.
Proof.
  intros H. unfold redoNote in *.
  destruct (historyRoute_ok _ _ _ _ H) as (note & note' & Hl & _ & Hop & ->).
  rewrite save_lookup. eexists. split; [done|].
  rewrite save_modified; [done|].
  rewrite Hl. intros [= ->].
  destruct (decide (redoStack note' = [])) as [Hv|Hv].
  - by rewrite redo_empty in Hop.
  - destruct (nonempty_snoc _ Hv) as (l & p & Hv').
    rewrite (redo_top _ _ _ _ Hv') in Hop. injection Hop as Hop.
    apply (f_equal redoStack) in Hop. simpl in Hop.
    rewrite Hv' in Hop. by eapply snoc_ne.
Qed.

Lemma postNote_created (oid : N) (now : Z) (body : Body) (db : Db) :
  status (fst (postNote oid now body db)) = 201 →
  ∃ t c, snd (postNote oid now body db) !! oid
         = Some (Note_create now (trim t) (trim c)).
Proof.
  unfold postNote.
  destruct (b_title body) as [| |b|z|t]; simpl; try discriminate.
  case_bool_decide; [discriminate|].
  destruct (b_content body) as [| |b|z|c]; simpl; try discriminate.
  case_bool_decide; [discriminate|].
  simpl. intros _. exists t, c. by rewrite lookup_insert_eq.
Qed.

Lemma validateAndApply_db (now stamp : Z) (id : N) (note : Note) (body : Body)
    (db : Db) :
  snd (validateAndApply now stamp id note body db) = db
  ∨ ∃ u, snd (validateAndApply now stamp id note body db)
         = snd (save stamp id (snd (applyUpdate now u note)) db).
Proof.
  unfold validateAndApply.
  destruct (checkField (b_title body)) as [|t| |];
    destruct (checkField (b_content body)) as [|c| |]; cbv beta zeta;
    try by left.
  all: match goal with
       | |- context [applyUpdate ?t ?u ?n] =>
           destruct (applyUpdate t u n) as [[r|m] note'] eqn:Ha; simpl;
           [right; exists u; by rewrite Ha | by left]
       end.
Qed.

Lemma validateAndApply_status (now stamp : Z) (id : N) (note : Note) (body : Body)
    (db : Db) :
  status (fst (validateAndApply now stamp id note body db)) ≠ 409.
Proof.
  unfold validateAndApply.
  destruct (checkField (b_title body)) as [|t| |];
    destruct (checkField (b_content body)) as [|c| |]; cbv beta zeta;
    try done.
  all: match goal with
       | |- context [applyUpdate ?t ?u ?n] =>
           by destruct (applyUpdate t u n) as [[r|m] note']
       end.
Qed.

Lemma patchNote_db (P : jsstring → option Z) (now stamp : Z) (id : N)
    (body : Body) (db : Db) :
  snd (patchNote P now stamp id body db) = db
  ∨ ∃ note u, db !! id = Some note
      ∧ snd (patchNote P now stamp id body db)
        = snd (save stamp id (snd (applyUpdate now u note)) db).
Proof.
  unfold patchNote, loadNote.
  destruct (db !! id) as [note|]; [|by left].
  destruct (isDeleted note); [by left|].
  destruct (isUndefined (b_title body) && isUndefined (b_content body)); [by left|].
  destruct (staleWrite P (b_lastKnownUpdate body) note); [by left|].
  destruct (validateAndApply_db now stamp id note body db) as [->|[u ->]];
    [by left|].
  right. by exists note, u.
Qed.

Lemma applyUpdate_updatedAt (now : Z) (u : Updates) (n : Note) :
  updatedAt (snd (applyUpdate now u n)) = updatedAt n.
Proof.
  destruct (applyUpdate_cases now u n) as [[_ ->] | [Hchg _]]; [done|].
  by rewrite applyUpdate_changed.
Qed.

Lemma undo_updatedAt (now : Z) (n : Note) :
  updatedAt (snd (undo now n)) = updatedAt n.
Proof.
  destruct (decide (versions n = [])) as [Hv|Hv].
  - by rewrite undo_empty.
  - destruct (nonempty_snoc _ Hv) as (l & p & Hv').
    by rewrite (undo_top _ _ _ _ Hv').
Qed.

Lemma redo_updatedAt (now : Z) (n : Note) :
  updatedAt (snd (redo now n)) = updatedAt n.
Proof.
  destruct (decide (redoStack n = [])) as [Hv|Hv].
  - by rewrite redo_empty.
  - destruct (nonempty_snoc _ Hv) as (l & p & Hv').
    by rewrite (redo_top _ _ _ _ Hv').
Qed.

Lemma patchNote_stamps (P : jsstring → option Z) (now stamp : Z) (id : N)
    (body : Body) (db : Db) (note n' : Note) :
  db !! id = Some note →
  snd (patchNote P now stamp id body db) !! id = Some n' →
  title n' ≠ title note ∨ content n' ≠ content note →
  updatedAt n' = stamp.
Proof.
  intros Hl Hl' Hdiff.
  destruct (patchNote_db P now stamp id body db) as [Heq | (note0 & u & Hl0 & Heq)];
    rewrite Heq in Hl'.
  - rewrite Hl in Hl'. injection Hl' as <-. by destruct Hdiff.
  - rewrite save_lookup in Hl'. injection Hl' as Hn'.
    destruct (decide (db !! id = Some (snd (applyUpdate now u note0)))) as [Hs|Hs].
    + unfold save in Hn'. rewrite bool_decide_eq_true_2 in Hn' by done.
      simpl in Hn'. rewrite Hl, Hn' in Hs. injection Hs as ->.
      by destruct Hdiff.
    + rewrite save_modified in Hn' by done. by subst n'.
Qed.

(** The claim C7 as it is written fails on [applyUpdate]: the edit of
    [noteA] at time 2000 changes the title and returns [true], and the note
    still has the [updatedAt] of its creation. *)
Lemma applyUpdate_updates_timestamp_counterexample :
  fst (applyUpdate 2000 titleB noteA) = Normal true
  ∧ title (snd (applyUpdate 2000 titleB noteA)) ≠ title noteA
  ∧ updatedAt (snd (applyUpdate 2000 titleB noteA)) = updatedAt noteA
  ∧ updatedAt noteA = 1000.
Proof. repeat split. discriminate. Qed.

(** C7, amended. [applyUpdate], [undo] and [redo] never write [updatedAt]:
    the note they leave has the timestamp it had. The timestamp is written
    by the save that ends each mutating route: a created note carries the
    time of its creation, and the stored note carries the time of the save
    after an edit that changed its title or content, after an undo and
    after a redo. *)
Theorem updatedAt_written_on_save :
  (∀ now u n, updatedAt (snd (applyUpdate now u n)) = updatedAt n)
  ∧ (∀ now n, updatedAt (snd (undo now n)) = updatedAt n)
  ∧ (∀ now n, updatedAt (snd (redo now n)) = updatedAt n)
  ∧ (∀ oid now body db,
       status (fst (postNote oid now body db)) = 201 →
       ∃ n, snd (postNote oid now body db) !! oid = Some n ∧ updatedAt n = now)
  ∧ (∀ P now stamp id body db note n',
       db !! id = Some note →
       snd (patchNote P now stamp id body db) !! id = Some n' →
       title n' ≠ title note ∨ content n' ≠ content note →
       updatedAt n' = stamp)
  ∧ (∀ now stamp id db,
       status (fst (undoNote now stamp id db)) = 200 →
       ∃ n, snd (undoNote now stamp id db) !! id = Some n ∧ updatedAt n = stamp)
  ∧ (∀ now stamp id db,
       status (fst (redoNote now stamp id db)) = 200 →
       ∃ n, snd (redoNote now stamp id db) !! id = Some n ∧ updatedAt n = stamp).
Proof.
  split; [exact applyUpdate_updatedAt|].
  split; [exact undo_updatedAt|].
  split; [exact redo_updatedAt|].
  split.
  { intros oid now body db H.
    destruct (postNote_created oid now body db H) as (t & c & Hl).
    eexists. split; [exact Hl | done]. }
  split; [exact patchNote_stamps|].
  split; [exact undoNote_stamps | exact redoNote_stamps].
Qed.

(** The routes on the sample collection: the first edit answers 200 and
    stores the title B with the time of the save; an undo then answers 200
    and stores the title A again, and a redo the title B. *)
Example edit_undo_redo_on_sample :
  status (fst (patchNote Date_parse_sample 2000 2500 7 bodyB sampleDb)) = 200
  ∧ editedDb !! 7%N = Some noteB
  ∧ (updatedAt <$> editedDb !! 7%N) = Some 2500
  ∧ status (fst (undoNote 3000 3500 7 editedDb)) = 200
  ∧ (title <$> snd (undoNote 3000 3500 7 editedDb) !! 7%N) = Some (js "A")
  ∧ (updatedAt <$> snd (undoNote 3000 3500 7 editedDb) !! 7%N) = Some 3500
  ∧ status (fst (redoNote 4000 4500 7 (snd (undoNote 3000 3500 7 editedDb)))) = 200
  ∧ (title <$> snd (redoNote 4000 4500 7 (snd (undoNote 3000 3500 7 editedDb))) !! 7%N)
    = Some (js "B")
  ∧ (updatedAt <$> snd (redoNote 4000 4500 7 (snd (undoNote 3000 3500 7 editedDb))) !! 7%N)
    = Some 4500.
Proof. vm_compute. repeat split. Qed.

(** ** The optimistic check of the edit route *)

(** The claim C5 as it is written fails twice on the collection
    [editedDb], whose note was last saved at time 2500. A request that
    carries the stale date of time 1000 but neither a title nor a content is
    answered 400, not 409. A request that carries the title C and
    [lastKnownUpdate: 0], a value that is provided and is not the time of
    the note, is not checked at all: it is answered 200 and the title C is
    stored. *)
Lemma optimistic_check_counterexample :
  (updatedAt <$> editedDb !! 7%N) = Some 2500
  ∧ truthy date1000 = true
  ∧ dateValue Date_parse_sample date1000 = Some 1000
  ∧ status (fst (patchNote Date_parse_sample 4000 4500 7
                   (mkBody JUndefined JUndefined date1000) editedDb)) = 400
  ∧ dateValue Date_parse_sample (JNum 0) = Some 0
  ∧ status (fst (patchNote Date_parse_sample 4000 4500 7
                   (mkBody (JStr (js "C")) JUndefined (JNum 0)) editedDb)) = 200
  ∧ (title <$> snd (patchNote Date_parse_sample 4000 4500 7
                      (mkBody (JStr (js "C")) JUndefined (JNum 0)) editedDb) !! 7%N)
    = Some (js "C").
Proof. vm_compute. repeat split. Qed.

(** C5, amended. For a request on a stored, not deleted note. When it
    sends neither a title nor a content it is answered 400 before the
    conflict check, whatever [lastKnownUpdate] is, and the collection is
    what it was. When it sends a title or a content: if [lastKnownUpdate]
    is truthy and the time of its date is not the note's [updatedAt] (the
    time of an invalid date is no time at all), the answer is 409 and the
    collection is what it was, [applyUpdate] not having run; if
    [lastKnownUpdate] is absent, or any other falsy value, there is no
    check: the request goes on to the emptiness checks and [applyUpdate],
    and is never answered 409. A truthy [lastKnownUpdate] of the note's own
    time goes on likewise. *)
Theorem optimistic_check (P : jsstring → option Z) (now stamp : Z) (id : N)
    (body : Body) (db : Db) (note : Note) :
  db !! id = Some note →
  isDeleted note = false →
  (isUndefined (b_title body) && isUndefined (b_content body) = true →
   patchNote P now stamp id body db =
     (mkResponse 400 (Message "No se enviaron campos para actualizar"), db))
  ∧ (isUndefined (b_title body) && isUndefined (b_content body) = false →
     truthy (b_lastKnownUpdate body) = true →
     dateValue P (b_lastKnownUpdate body) ≠ Some (updatedAt note) →
     patchNote P now stamp id body db =
       (mkResponse 409
          (Message "La nota fue modificada previamente, recarga antes de editar"),
        db))
  ∧ (isUndefined (b_title body) && isUndefined (b_content body) = false →
     truthy (b_lastKnownUpdate body) = false
     ∨ dateValue P (b_lastKnownUpdate body) = Some (updatedAt note) →
     patchNote P now stamp id body db = validateAndApply now stamp id note body db
     ∧ status (fst (patchNote P now stamp id body db)) ≠ 409).
Proof.
  intros Hl Hd. unfold patchNote, loadNote. rewrite Hl, Hd.
  unfold staleWrite. split; [|split].
  - by intros ->.
  - intros -> -> Hne. simpl. by rewrite bool_decide_eq_true_2.
  - intros -> [-> | Heq]; simpl.
    + split; [done | apply validateAndApply_status].
    + rewrite (bool_decide_eq_false_2 _); [|by intros ?].
      rewrite andb_false_r.
      split; [done | apply validateAndApply_status].
Qed.

Lemma optimistic_check_witness :
  patchNote Date_parse_sample 4000 4500 7 (mkBody JUndefined JUndefined date1000)
    editedDb
  = (mkResponse 400 (Message "No se enviaron campos para actualizar"), editedDb)
  ∧ patchNote Date_parse_sample 4000 4500 7 (bodyB_at date1000) editedDb
    = (mkResponse 409
         (Message "La nota fue modificada previamente, recarga antes de editar"),
       editedDb).
Proof.
  split.
  - destruct (optimistic_check Date_parse_sample 4000 4500 7
                (mkBody JUndefined JUndefined date1000) editedDb noteB) as (H & _).
    + vm_compute. reflexivity.
    + reflexivity.
    + apply H. reflexivity.
  - destruct (optimistic_check Date_parse_sample 4000 4500 7 (bodyB_at date1000)
                editedDb noteB) as (_ & H & _).
    + vm_compute. reflexivity.
    + reflexivity.
    + apply H; [reflexivity | reflexivity |]. vm_compute. discriminate.
Defined.

(** ** The bin *)










(** A trash / restore cycle on the sample collection: the note is marked,
    then unmarked, and holds the title B and its one snapshot throughout. *)
Example trash_restore_on_sample :
  (isDeleted <$> serveBin editedDb (Trash 5000 5500 7) !! 7%N) = Some true
  ∧ (isDeleted <$> serveBinAll [Trash 5000 5500 7; Restore 6000 7] editedDb !! 7%N)
    = Some false
  ∧ (historyState <$> serveBinAll [Trash 5000 5500 7; Restore 6000 7] editedDb !! 7%N)
    = Some (js "B", js "1", [mkSnapshot (js "A") (js "1") 2000], []).
Proof. vm_compute. repeat split. Qed.

(** ** Trim-stability *)

Lemma editedField_stable (proposed : option jsstring) (current : jsstring) :
  trim current = current →
  trim (editedField proposed current) = editedField proposed current.
Proof. destruct proposed as [s|]; simpl; [intros _; apply trim_idem | done]. Qed.

Lemma createSnapshot_stable (now : Z) (n : Note) :
  trimStable n → snapshotStable (createSnapshot now n).
Proof. done. Qed.

Lemma push_stable (now : Z) (n : Note) (stack : list Snapshot) :
  trimStable n → Forall snapshotStable stack →
  Forall snapshotStable (limitStack (stack ++ [createSnapshot now n])).
Proof.
  intros Hn Hs. apply limitStack_Forall, Forall_app. split; [done|].
  apply Forall_singleton. by apply createSnapshot_stable.
Qed.

Lemma Note_create_stable (now : Z) (t c : jsstring) :
  historyStable (Note_create now (trim t) (trim c)).
Proof.
  unfold historyStable, trimStable. simpl.
  repeat split; try apply trim_idem; apply Forall_nil_2.
Qed.

Lemma applyUpdate_stable (now : Z) (u : Updates) (n : Note) :
  historyStable n → historyStable (snd (applyUpdate now u n)).
Proof.
  intros (Hn & Hv & Hr).
  destruct (applyUpdate_cases now u n) as [[_ ->] | [Hchg _]]; [done|].
  rewrite applyUpdate_changed by done. simpl.
  split; [|split]; simpl.
  - destruct Hn as [Ht Hc]. split; simpl; by apply editedField_stable.
  - by apply push_stable.
  - apply Forall_nil_2.
Qed.

Lemma undo_stable (now : Z) (n : Note) :
  historyStable n → historyStable (snd (undo now n)).
Proof.
  intros (Hn & Hv & Hr).
  destruct (decide (versions n = [])) as [He|Hne].
  - by rewrite undo_empty.
  - destruct (nonempty_snoc _ Hne) as (l & p & Hl).
    rewrite (undo_top _ _ _ _ Hl). simpl.
    rewrite Hl in Hv. apply Forall_app in Hv as [Hv Hp].
    apply Forall_inv in Hp.
    split; [exact Hp|]. split; simpl; [done|]. by apply push_stable.
Qed.

Lemma redo_stable (now : Z) (n : Note) :
  historyStable n → historyStable (snd (redo now n)).
Proof.
  intros (Hn & Hv & Hr).
  destruct (decide (redoStack n = [])) as [He|Hne].
  - by rewrite redo_empty.
  - destruct (nonempty_snoc _ Hne) as (l & p & Hl).
    rewrite (redo_top _ _ _ _ Hl). simpl.
    rewrite Hl in Hr. apply Forall_app in Hr as [Hr Hp].
    apply Forall_inv in Hp.
    split; [exact Hp|]. split; simpl; [by apply push_stable | done].
Qed.

Lemma performAll_stable (ops : list Op) (n : Note) :
  historyStable n → historyStable (performAll ops n).
Proof.
  unfold performAll. revert n.
  induction ops as [|op ops IH]; intros n Hn; [done|].
  simpl. apply IH.
  destruct op as [now u | now | now]; simpl.
  - by apply applyUpdate_stable.
  - by apply undo_stable.
  - by apply redo_stable.
Qed.

(** C10. Trim-stability: the note that a successful creation stores has a
    title and a content equal to their own trim, and so has the note after
    any sequence of [applyUpdate], [undo] and [redo] calls on it, whether
    they return or throw; the snapshots of both stacks are trim-stable
    along the way. *)
Theorem trim_stability (oid : N) (now : Z) (body : Body) (db : Db) :
  status (fst (postNote oid now body db)) = 201 →
  ∃ n, snd (postNote oid now body db) !! oid = Some n
       ∧ trimStable n
       ∧ ∀ ops, trimStable (performAll ops n) ∧ historyStable (performAll ops n).
Proof.
  intros H. destruct (postNote_created oid now body db H) as (t & c & Hl).
  exists (Note_create now (trim t) (trim c)).
  pose proof (Note_create_stable now t c) as Hs.
  split; [done|]. split; [apply Hs|].
  intros ops. pose proof (performAll_stable ops _ Hs) as Hops.
  split; [apply Hops | exact Hops].
Qed.

Lemma trim_stability_witness :
  ∃ n, snd (postNote 7 1000 bodyCreate ∅) !! 7%N = Some n
       ∧ trimStable n
       ∧ ∀ ops, trimStable (performAll ops n) ∧ historyStable (performAll ops n).
Proof. apply (trim_stability 7 1000 bodyCreate ∅). reflexivity. Defined.

(** The creation of the sample note: the title " A " is stored as "A". *)
Example create_on_sample : snd (postNote 7 1000 bodyCreate ∅) !! 7%N = Some noteA.
Proof. vm_compute. reflexivity. Qed.

(** * Further properties of the service *)

(** X1. Whatever [applyUpdate] is given, it returns a boolean and never
    throws; afterwards every proposed field holds its trimmed proposal and
    every absent field is untouched; the boolean tells whether the title or
    the content is now different, and on [false] the whole note is as it
    was. *)
Theorem applyUpdate_outcome (now : Z) (u : Updates) (n : Note) :
  ∃ b, fst (applyUpdate now u n) = Normal b
    ∧ title (snd (applyUpdate now u n)) = editedField (u_title u) (title n)
    ∧ content (snd (applyUpdate now u n)) = editedField (u_content u) (content n)
    ∧ (b = true ↔ title (snd (applyUpdate now u n)) ≠ title n
                  ∨ content (snd (applyUpdate now u n)) ≠ content n)
    ∧ (b = false → snd (applyUpdate now u n) = n).
Proof.
  destruct (hasChange (u_title u) (title n)) eqn:Ht;
    destruct (hasChange (u_content u) (content n)) eqn:Hc.
  4: { exists false. rewrite applyUpdate_unchanged by done. simpl.
       pose proof (proj1 (hasChange_false_iff _ _) Ht) as Ht'.
       pose proof (proj1 (hasChange_false_iff _ _) Hc) as Hc'.
       assert (Ht2 : editedField (u_title u) (title n) = title n)
         by (destruct (u_title u); simpl; auto).
       assert (Hc2 : editedField (u_content u) (content n) = content n)
         by (destruct (u_content u); simpl; auto).
       repeat split; try done. by intros [?|?]. }
  all: exists true; rewrite applyUpdate_changed by (by rewrite Ht, Hc); simpl;
    repeat split; try done; intros _.
  - left. destruct (u_title u) as [s|]; [|done].
    simpl in *. by apply bool_decide_eq_true in Ht.
  - left. destruct (u_title u) as [s|]; [|done].
    simpl in *. by apply bool_decide_eq_true in Ht.
  - right. destruct (u_content u) as [s|]; [|done].
    simpl in *. by apply bool_decide_eq_true in Hc.
Qed.

(** ** The two stacks together *)

Lemma limitStack_map {A B} (f : A → B) (l : list A) :
  map f (limitStack l) = limitStack (map f l).
Proof.
  unfold limitStack. rewrite length_map.
  destruct (MAX_HISTORY <? length l)%nat; [|done]. by destruct l.
Qed.

Lemma limitStack_room {A} (l : list A) (x : A) :
  (length l < MAX_HISTORY)%nat → limitStack (l ++ [x]) = l ++ [x].
Proof.
  intros Hl. unfold limitStack. rewrite length_app. simpl.
  destruct (Nat.ltb_spec MAX_HISTORY (length l + 1)); [lia | done].
Qed.

Lemma perform_shares_bound (n : Note) (op : Op) :
  stacksShareBound n → stacksShareBound (perform n op).
Proof.
  unfold stacksShareBound. intros Hn.
  destruct op as [now u | now | now]; simpl.
  - destruct (applyUpdate_cases now u n) as [[_ ->] | [Hchg _]]; [done|].
    rewrite applyUpdate_changed by done. simpl.
    pose proof (limitStack_length (versions n ++ [createSnapshot now n])) as H.
    rewrite length_app in H. simpl in H. lia.
  - destruct (decide (versions n = [])) as [He|Hne].
    + by rewrite undo_empty.
    + destruct (nonempty_snoc _ Hne) as (l & p & Hl).
      rewrite (undo_top _ _ _ _ Hl). simpl.
      rewrite Hl, length_app in Hn. simpl in Hn.
      rewrite limitStack_room by lia. rewrite length_app. simpl. lia.
  - destruct (decide (redoStack n = [])) as [He|Hne].
    + by rewrite redo_empty.
    + destruct (nonempty_snoc _ Hne) as (l & p & Hl).
      rewrite (redo_top _ _ _ _ Hl). simpl.
      rewrite Hl, length_app in Hn. simpl in Hn.
      rewrite limitStack_room by lia. rewrite length_app. simpl. lia.
Qed.

(** X2. The service keeps the two stacks together within the bound: when a
    note holds at most 20 snapshots in its undo and redo stacks taken
    together, so does the note after any sequence of [applyUpdate], [undo]
    and [redo] calls. A created note holds none. *)
Theorem service_shares_bound (ops : list Op) (n : Note) :
  stacksShareBound n → stacksShareBound (performAll ops n).
Proof.
  unfold performAll. revert n.
  induction ops as [|op ops IH]; intros n Hn; [done|].
  simpl. by apply IH, perform_shares_bound.
Qed.

Lemma service_shares_bound_witness :
  stacksShareBound
    (performAll [Edit 2000 titleB; Undo 3000; Redo 4000; Undo 5000] noteA).
Proof.
  apply (service_shares_bound [Edit 2000 titleB; Undo 3000; Redo 4000; Undo 5000] noteA).
  unfold stacksShareBound, MAX_HISTORY. simpl. lia.
Defined.

(** ** Undo and redo as inverse steps *)

Lemma undo_view (now : Z) (n : Note) :
  contentView (snd (undo now n)) = undoView (contentView n).
Proof.
  unfold contentView, undoView.
  destruct (decide (versions n = [])) as [He|Hne].
  - rewrite undo_empty by done. simpl. by rewrite He.
  - destruct (nonempty_snoc _ Hne) as (l & p & Hl).
    rewrite (undo_top _ _ _ _ Hl). simpl.
    rewrite Hl, map_app. simpl.
    rewrite last_snoc, removelast_last, limitStack_map, map_app. done.
Qed.

Lemma redo_view (now : Z) (n : Note) :
  contentView (snd (redo now n)) = redoView (contentView n).
Proof.
  unfold contentView, redoView.
  destruct (decide (redoStack n = [])) as [He|Hne].
  - rewrite redo_empty by done. simpl. by rewrite He.
  - destruct (nonempty_snoc _ Hne) as (l & p & Hl).
    rewrite (redo_top _ _ _ _ Hl). simpl.
    rewrite Hl, map_app. simpl.
    rewrite last_snoc, removelast_last, limitStack_map, map_app. done.
Qed.

Lemma undos_view (ts : list Z) (n : Note) :
  contentView (performAll (map Undo ts) n)
  = Nat.iter (length ts) undoView (contentView n).
Proof.
  unfold performAll. revert n.
  induction ts as [|t ts IH]; intros n; [done|].
  simpl map. simpl fold_left. rewrite IH. simpl length.
  rewrite Nat.iter_succ_r. by rewrite undo_view.
Qed.

Lemma redos_view (ts : list Z) (n : Note) :
  contentView (performAll (map Redo ts) n)
  = Nat.iter (length ts) redoView (contentView n).
Proof.
  unfold performAll. revert n.
  induction ts as [|t ts IH]; intros n; [done|].
  simpl map. simpl fold_left. rewrite IH. simpl length.
  rewrite Nat.iter_succ_r. by rewrite redo_view.
Qed.

Lemma undoView_step (t c : jsstring) (vs rs : list (jsstring * jsstring))
    (p : jsstring * jsstring) :
  (length (vs ++ [p]) + length rs ≤ MAX_HISTORY)%nat →
  undoView (t, c, vs ++ [p], rs) = (fst p, snd p, vs, rs ++ [(t, c)]).
Proof.
  intros H. rewrite length_app in H. simpl in H.
  unfold undoView. rewrite last_snoc, removelast_last.
  by rewrite limitStack_room by lia.
Qed.

Lemma redoView_step (t c : jsstring) (vs rs : list (jsstring * jsstring))
    (p : jsstring * jsstring) :
  (length vs + length (rs ++ [p]) ≤ MAX_HISTORY)%nat →
  redoView (t, c, vs, rs ++ [p]) = (fst p, snd p, vs ++ [(t, c)], rs).
Proof.
  intros H. rewrite length_app in H. simpl in H.
  unfold redoView. rewrite last_snoc, removelast_last.
  by rewrite limitStack_room by lia.
Qed.

Lemma undos_then_redos_view (k : nat) (t c : jsstring)
    (vs rs : list (jsstring * jsstring)) :
  (k ≤ length vs)%nat → (length vs + length rs ≤ MAX_HISTORY)%nat →
  Nat.iter k redoView (Nat.iter k undoView (t, c, vs, rs)) = (t, c, vs, rs).
Proof.
  revert t c vs rs. induction k as [|k IH]; intros t c vs rs Hk Hb; [done|].
  destruct vs as [|v0 vs0] using rev_ind; [simpl in Hk; lia|]. clear IHvs0.
  rewrite (Nat.iter_succ_r k undoView), undoView_step by done.
  rewrite length_app in Hk, Hb. simpl in Hk, Hb.
  rewrite (Nat.iter_succ k redoView), IH.
  - rewrite redoView_step by (rewrite length_app; simpl; lia).
    by destruct v0.
  - lia.
  - rewrite length_app. simpl. lia.
Qed.

Lemma redos_then_undos_view (k : nat) (t c : jsstring)
    (vs rs : list (jsstring * jsstring)) :
  (k ≤ length rs)%nat → (length vs + length rs ≤ MAX_HISTORY)%nat →
  Nat.iter k undoView (Nat.iter k redoView (t, c, vs, rs)) = (t, c, vs, rs).
Proof.
  revert t c vs rs. induction k as [|k IH]; intros t c vs rs Hk Hb; [done|].
  destruct rs as [|r0 rs0] using rev_ind; [simpl in Hk; lia|]. clear IHrs0.
  rewrite (Nat.iter_succ_r k redoView), redoView_step by done.
  rewrite length_app in Hk, Hb. simpl in Hk, Hb.
  rewrite (Nat.iter_succ k undoView), IH.
  - rewrite undoView_step by (rewrite length_app; simpl; lia).
    by destruct r0.
  - lia.
  - rewrite length_app. simpl. lia.
Qed.

Lemma performAll_app (ops1 ops2 : list Op) (n : Note) :
  performAll (ops1 ++ ops2) n = performAll ops2 (performAll ops1 n).
Proof. unfold performAll. by rewrite fold_left_app. Qed.

(** X3. Undo and redo are inverse over any depth the history allows: on a
    note whose stacks hold at most 20 snapshots together, [k] undos followed
    by [k] redos, [k] at most the height of the undo stack, give back the
    title, the content and both stacks (snapshot times apart). *)
Theorem undos_then_redos (ts1 ts2 : list Z) (n : Note) :
  length ts1 = length ts2 →
  (length ts1 ≤ length (versions n))%nat →
  stacksShareBound n →
  contentView (performAll (map Undo ts1 ++ map Redo ts2) n) = contentView n.
Proof.
  intros Hlen Hk Hb. rewrite performAll_app, redos_view, undos_view, <- Hlen.
  unfold contentView, stacksShareBound in *.
  apply undos_then_redos_view; by rewrite !length_map.
Qed.

Lemma undos_then_redos_witness :
  contentView (performAll (map Undo [3000] ++ map Redo [4000]) noteB)
  = contentView noteB.
Proof.
  apply (undos_then_redos [3000] [4000] noteB).
  - reflexivity.
  - simpl. lia.
  - unfold stacksShareBound, MAX_HISTORY. simpl. lia.
Defined.

(** X4. The mirror image: [k] redos followed by [k] undos, [k] at most the
    height of the redo stack, give back the title, the content and both
    stacks (snapshot times apart) of a note whose stacks hold at most 20
    snapshots together. *)
Theorem redos_then_undos (ts1 ts2 : list Z) (n : Note) :
  length ts1 = length ts2 →
  (length ts1 ≤ length (redoStack n))%nat →
  stacksShareBound n →
  contentView (performAll (map Redo ts1 ++ map Undo ts2) n) = contentView n.
Proof.
  intros Hlen Hk Hb. rewrite performAll_app, undos_view, redos_view, <- Hlen.
  unfold contentView, stacksShareBound in *.
  apply redos_then_undos_view; by rewrite !length_map.
Qed.

Lemma redos_then_undos_witness :
  contentView (performAll (map Redo [4000] ++ map Undo [5000]) noteUndone)
  = contentView noteUndone.
Proof.
  apply (redos_then_undos [4000] [5000] noteUndone).
  - reflexivity.
  - simpl. lia.
  - unfold stacksShareBound, MAX_HISTORY. simpl. lia.
Defined.

(** X5. What the shared bound is for: on a note whose redo stack is full,
    an undo evicts the oldest redo snapshot, and the redo that follows
    leaves the redo stack without it. *)
Theorem undo_on_full_redo_evicts (t1 t2 : Z) (n : Note) :
  versions n ≠ [] →
  length (redoStack n) = MAX_HISTORY →
  redoStack (snd (undo t1 n)) = tail (redoStack n) ++ [createSnapshot t1 n]
  ∧ redoStack (snd (redo t2 (snd (undo t1 n)))) = tail (redoStack n).
Proof.
  intros Hne Hfull.
  destruct (nonempty_snoc _ Hne) as (l & p & Hl).
  rewrite (undo_top _ _ _ _ Hl).
  assert (Hlim : limitStack (redoStack n ++ [createSnapshot t1 n])
                 = tail (redoStack n) ++ [createSnapshot t1 n]).
  { unfold limitStack. rewrite length_app, Hfull. simpl.
    destruct (redoStack n); [discriminate | done]. }
  split; [by simpl|].
  erewrite redo_top; [|simpl; exact Hlim]. done.
Qed.

Lemma undo_on_full_redo_evicts_witness :
  redoStack (snd (undo 3000 crowdedNote))
    = tail (redoStack crowdedNote) ++ [createSnapshot 3000 crowdedNote]
  ∧ redoStack (snd (redo 4000 (snd (undo 3000 crowdedNote))))
    = tail (redoStack crowdedNote).
Proof.
  apply (undo_on_full_redo_evicts 3000 4000 crowdedNote).
  - discriminate.
  - reflexivity.
Defined.

(** ** Sequences of edits *)

Lemma edits_versions (es : list (Z * Updates)) (n : Note) :
  versions (performAll (map (λ e, Edit (fst e) (snd e)) es) n)
  = fold_left pushLimited (editSnapshots es n) (versions n).
Proof.
  unfold performAll. revert n.
  induction es as [|[now u] es IH]; intros n; [done|].
  simpl map. simpl fold_left at 1. rewrite IH. simpl editSnapshots.
  destruct (applyUpdate_cases now u n) as [[_ Heq] | [Hchg Hret]].
  - by rewrite Heq.
  - rewrite Hret. simpl. by rewrite applyUpdate_pushes.
Qed.

(** X6. Bounded history of edits: after any sequence of [applyUpdate]
    calls on a note whose undo stack was empty, the undo stack holds the
    snapshots taken by the calls that returned [true], in order, the
    oldest ones dropped so that at most 20 remain. *)
Theorem edits_keep_recent_snapshots (es : list (Z * Updates)) (n : Note) :
  versions n = [] →
  versions (performAll (map (λ e, Edit (fst e) (snd e)) es) n)
  = drop (length (editSnapshots es n) - 20) (editSnapshots es n).
Proof.
  intros Hv. rewrite edits_versions, Hv.
  exact (pushAll_recent (editSnapshots es n)).
Qed.

Lemma edits_keep_recent_snapshots_witness :
  versions (performAll
              (map (λ e, Edit (fst e) (snd e)) [(2000, titleB); (3000, sameA)]) noteA)
  = drop (length (editSnapshots [(2000, titleB); (3000, sameA)] noteA) - 20)
      (editSnapshots [(2000, titleB); (3000, sameA)] noteA).
Proof.
  apply (edits_keep_recent_snapshots [(2000, titleB); (3000, sameA)] noteA).
  reflexivity.
Defined.

(** Twenty-five edits of the title, as in the test "No supera
    MAX_HISTORY": the undo stack holds the twenty titles that came just
    before the last one. *)
Example twenty_five_edits :
  map s_title
    (versions (performAll
       (map (λ k, Edit (Z.of_nat k) (mkUpdates (Some [N.of_nat k]) None)) (seq 100 25))
       noteA))
  = map (λ k, [N.of_nat k]) (seq 104 20).
Proof. vm_compute. reflexivity. Qed.

(** * Further properties of the routes *)

Lemma save_shape (stamp : Z) (id : N) (n : Note) (db : Db) :
  snd (save stamp id n db) = db
  ∨ snd (save stamp id n db) = <[id := set_updatedAt stamp n]> db.
Proof. unfold save. case_bool_decide; [by left | by right]. Qed.

Lemma applyUpdate_returns (now : Z) (u : Updates) (n : Note) :
  ∃ b, fst (applyUpdate now u n) = Normal b.
Proof.
  destruct (applyUpdate_cases now u n) as [[_ ->] | [_ ->]]; eauto.
Qed.

Lemma validateAndApply_shape (now stamp : Z) (id : N) (note : Note) (body : Body)
    (db : Db) :
  (status (fst (validateAndApply now stamp id note body db)) ≠ 200
   ∧ snd (validateAndApply now stamp id note body db) = db)
  ∨ ∃ u, (∀ s, u_title u = Some s → trim s ≠ [])
       ∧ (∀ s, u_content u = Some s → trim s ≠ [])
       ∧ validateAndApply now stamp id note body db
         = (mkResponse 200
              (Document (snd (save stamp id (snd (applyUpdate now u note)) db) !! id)),
            snd (save stamp id (snd (applyUpdate now u note)) db)).
Proof.
  unfold validateAndApply, checkField.
  destruct (b_title body) as [| |b|z|t]; try (by left);
    destruct (b_content body) as [| |b'|z'|c]; try (by left);
    repeat case_bool_decide; try (by left); cbv beta zeta.
  all: match goal with
       | |- context [applyUpdate ?t ?u ?n] =>
           destruct (applyUpdate_returns t u n) as (r & Hr);
           destruct (applyUpdate t u n) as [res note'] eqn:Ha;
           simpl in Hr; subst res; right; exists u;
           split; [|split]; [simpl; try done; by intros ? [= <-] ..|];
           by rewrite Ha
       end.
Qed.

Lemma patchNote_shape (P : jsstring → option Z) (now stamp : Z) (id : N)
    (body : Body) (db : Db) :
  (status (fst (patchNote P now stamp id body db)) ≠ 200
   ∧ snd (patchNote P now stamp id body db) = db)
  ∨ ∃ note u, db !! id = Some note ∧ isDeleted note = false
       ∧ staleWrite P (b_lastKnownUpdate body) note = false
       ∧ (∀ s, u_title u = Some s → trim s ≠ [])
       ∧ (∀ s, u_content u = Some s → trim s ≠ [])
       ∧ patchNote P now stamp id body db
         = (mkResponse 200
              (Document (snd (save stamp id (snd (applyUpdate now u note)) db) !! id)),
            snd (save stamp id (snd (applyUpdate now u note)) db)).
Proof.
  unfold patchNote, loadNote.
  destruct (db !! id) as [note|]; [|by left].
  destruct (isDeleted note) eqn:Hd; [by left|].
  destruct (isUndefined (b_title body) && isUndefined (b_content body)); [by left|].
  destruct (staleWrite P (b_lastKnownUpdate body) note) eqn:Hs; [by left|].
  destruct (validateAndApply_shape now stamp id note body db)
    as [? | (u & Ht & Hc & Heq)]; [by left|].
  right. by exists note, u.
Qed.

Lemma historyRoute_shape (op : Js unit) (stamp : Z) (id : N) (db : Db) :
  (status (fst (historyRoute op stamp id db)) ≠ 200
   ∧ snd (historyRoute op stamp id db) = db)
  ∨ ∃ note note', db !! id = Some note ∧ isDeleted note = false
       ∧ op note = (Normal tt, note')
       ∧ historyRoute op stamp id db
         = (mkResponse 200 (Document (snd (save stamp id note' db) !! id)),
            snd (save stamp id note' db)).
Proof.
  unfold historyRoute, loadNote.
  destruct (db !! id) as [note|]; [|by left].
  destruct (isDeleted note) eqn:Hd; [by left|].
  destruct (op note) as [[[]|m] note'] eqn:Hop; [|by left].
  right. by exists note, note'.
Qed.

Lemma trashNote_shape (now stamp : Z) (id : N) (db : Db) :
  (status (fst (trashNote now stamp id db)) = 404
   ∧ snd (trashNote now stamp id db) = db)
  ∨ ∃ note, db !! id = Some note ∧ isDeleted note = false
       ∧ status (fst (trashNote now stamp id db)) = 200
       ∧ snd (trashNote now stamp id db)
         = <[id := set_updatedAt stamp
                     (set_deletedAt (Some now) (set_isDeleted true note))]> db.
Proof.
  unfold trashNote, loadNote.
  destruct (db !! id) as [note|] eqn:Hl; [|by left].
  destruct (isDeleted note) eqn:Hd; [by left|].
  right. exists note. repeat split; try done. simpl.
  unfold save. rewrite bool_decide_eq_false_2; [done|].
  rewrite Hl. intros [= H]. apply (f_equal isDeleted) in H. simpl in H. congruence.
Qed.

Lemma restoreNote_shape (stamp : Z) (id : N) (db : Db) :
  (status (fst (restoreNote stamp id db)) = 404
   ∧ snd (restoreNote stamp id db) = db)
  ∨ ∃ note, db !! id = Some note ∧ isDeleted note = true
       ∧ status (fst (restoreNote stamp id db)) = 200
       ∧ snd (restoreNote stamp id db)
         = <[id := set_updatedAt stamp
                     (set_deletedAt None (set_isDeleted false note))]> db.
Proof.
  unfold restoreNote.
  destruct (db !! id) as [note|] eqn:Hl; [|by left].
  destruct (isDeleted note) eqn:Hd; simpl; [|by left].
  right. exists note. unfold save. rewrite bool_decide_eq_false_2.
  - by repeat split.
  - rewrite Hl. intros [= H]. apply (f_equal isDeleted) in H. simpl in H. congruence.
Qed.

Lemma postNote_shape (oid : N) (now : Z) (body : Body) (db : Db) :
  (status (fst (postNote oid now body db)) ≠ 201
   ∧ status (fst (postNote oid now body db)) ≠ 200
   ∧ snd (postNote oid now body db) = db)
  ∨ ∃ t c, trim t ≠ [] ∧ trim c ≠ []
       ∧ status (fst (postNote oid now body db)) = 201
       ∧ snd (postNote oid now body db)
         = <[oid := Note_create now (trim t) (trim c)]> db.
Proof.
  unfold postNote.
  destruct (b_title body) as [| |b|z|t]; simpl; try (by left).
  case_bool_decide; [by left|].
  destruct (b_content body) as [| |b|z|c]; simpl; try (by left).
  case_bool_decide; [by left|].
  right. by exists t, c.
Qed.

(** The collection a request leaves: the one it found, or that one with
    the target document written or removed. *)
Lemma serve_shape (P : jsstring → option Z) (db : Db) (r : Request) :
  snd (serve P db r) = db
  ∨ (∃ n', snd (serve P db r) = <[target r := n']> db)
  ∨ snd (serve P db r) = delete (target r) db.
Proof.
  destruct r as [oid now body | now stamp id body | now stamp id | now stamp id
                | now stamp id | stamp id | id]; simpl.
  - destruct (postNote_shape oid now body db) as [(_ & _ & ->) | (t & c & _ & _ & _ & ->)];
      [by left | right; left; eauto].
  - destruct (patchNote_shape P now stamp id body db)
      as [[_ ->] | (note & u & _ & _ & _ & _ & _ & ->)]; [by left|]. simpl.
    destruct (save_shape stamp id (snd (applyUpdate now u note)) db) as [-> | ->];
      [by left | right; left; eauto].
  - unfold undoNote.
    destruct (historyRoute_shape (undo now) stamp id db)
      as [[_ ->] | (note & note' & _ & _ & _ & ->)]; [by left|]. simpl.
    destruct (save_shape stamp id note' db) as [-> | ->];
      [by left | right; left; eauto].
  - unfold redoNote.
    destruct (historyRoute_shape (redo now) stamp id db)
      as [[_ ->] | (note & note' & _ & _ & _ & ->)]; [by left|]. simpl.
    destruct (save_shape stamp id note' db) as [-> | ->];
      [by left | right; left; eauto].
  - destruct (trashNote_shape now stamp id db) as [[_ ->] | (note & _ & _ & _ & ->)];
      [by left | right; left; eauto].
  - destruct (restoreNote_shape stamp id db) as [[_ ->] | (note & _ & _ & _ & ->)];
      [by left | right; left; eauto].
  - unfold deletePermanent. destruct (db !! id); [by right; right | by left].
Qed.

(** X7. A request touches one document: whatever the request and its
    answer, every document other than its target is in the collection
    afterwards exactly as before (present with the same fields, or absent). *)
Theorem request_leaves_others (P : jsstring → option Z) (db : Db) (r : Request)
    (id : N) :
  id ≠ target r → snd (serve P db r) !! id = db !! id.
Proof.
  intros Hne.
  destruct (serve_shape P db r) as [-> | [[n' ->] | ->]]; [done| |].
  - by rewrite lookup_insert_ne.
  - by rewrite lookup_delete_ne.
Qed.

Lemma request_leaves_others_witness :
  snd (serve Date_parse_sample sampleDb (POST 8 5000 bodyCreate)) !! 7%N
  = sampleDb !! 7%N.
Proof.
  apply (request_leaves_others Date_parse_sample sampleDb (POST 8 5000 bodyCreate) 7).
  discriminate.
Defined.

(** X8. A refused request changes nothing: when a route answers with a
    status other than 200 and 201 (400, 404, 409, 500), the collection is
    the one it found. *)
Theorem refusal_leaves_collection (P : jsstring → option Z) (db : Db)
    (r : Request) :
  status (fst (serve P db r)) ≠ 200 →
  status (fst (serve P db r)) ≠ 201 →
  snd (serve P db r) = db.
Proof.
  destruct r as [oid now body | now stamp id body | now stamp id | now stamp id
                | now stamp id | stamp id | id]; simpl; intros H200 H201.
  - destruct (postNote_shape oid now body db) as [(_ & _ & ->) | (t & c & _ & _ & H & _)];
      [done | by rewrite H in H201].
  - destruct (patchNote_shape P now stamp id body db)
      as [[_ ->] | (note & u & _ & _ & _ & _ & _ & Heq)]; [done|].
    by rewrite Heq in H200.
  - unfold undoNote in *.
    destruct (historyRoute_shape (undo now) stamp id db)
      as [[_ ->] | (note & note' & _ & _ & _ & Heq)]; [done|].
    by rewrite Heq in H200.
  - unfold redoNote in *.
    destruct (historyRoute_shape (redo now) stamp id db)
      as [[_ ->] | (note & note' & _ & _ & _ & Heq)]; [done|].
    by rewrite Heq in H200.
  - destruct (trashNote_shape now stamp id db) as [[_ ->] | (note & _ & _ & H & _)];
      [done | by rewrite H in H200].
  - destruct (restoreNote_shape stamp id db) as [[_ ->] | (note & _ & _ & H & _)];
      [done | by rewrite H in H200].
  - unfold deletePermanent in *. by destruct (db !! id).
Qed.

Lemma refusal_leaves_collection_witness :
  snd (serve Date_parse_sample sampleDb (PATCH_undo 3000 3500 7)) = sampleDb.
Proof.
  apply (refusal_leaves_collection Date_parse_sample sampleDb (PATCH_undo 3000 3500 7));
    vm_compute; discriminate.
Defined.

(** ** What every stored note satisfies *)

Lemma push_filled (now : Z) (n : Note) (stack : list Snapshot) :
  title n ≠ [] → content n ≠ [] → Forall snapshotFilled stack →
  Forall snapshotFilled (limitStack (stack ++ [createSnapshot now n])).
Proof.
  intros Ht Hc Hs. apply limitStack_Forall, Forall_app. split; [done|].
  by apply Forall_singleton.
Qed.

Lemma applyUpdate_sound (now : Z) (u : Updates) (n : Note) :
  (∀ s, u_title u = Some s → trim s ≠ []) →
  (∀ s, u_content u = Some s → trim s ≠ []) →
  sound n → sound (snd (applyUpdate now u n)).
Proof.
  intros Hut Huc (Hs & (Ht & Hc & Hv & Hr) & Hb & Hbin).
  split; [by apply applyUpdate_stable|].
  split; [|split; [by apply (perform_shares_bound n (Edit now u))|]].
  - destruct (applyUpdate_cases now u n) as [[_ ->] | [Hchg _]]; [done|].
    rewrite applyUpdate_changed by done.
    repeat split; simpl.
    + destruct (u_title u) as [s|]; simpl; [by apply Hut | done].
    + destruct (u_content u) as [s|]; simpl; [by apply Huc | done].
    + by apply push_filled.
    + apply Forall_nil_2.
  - destruct (applyUpdate_cases now u n) as [[_ ->] | [Hchg _]]; [done|].
    by rewrite applyUpdate_changed.
Qed.

Lemma undo_sound (now : Z) (n : Note) : sound n → sound (snd (undo now n)).
Proof.
  intros (Hs & (Ht & Hc & Hv & Hr) & Hb & Hbin).
  split; [by apply undo_stable|].
  split; [|split; [by apply (perform_shares_bound n (Undo now))|]].
  - destruct (decide (versions n = [])) as [He|Hne]; [by rewrite undo_empty|].
    destruct (nonempty_snoc _ Hne) as (l & p & Hl).
    rewrite (undo_top _ _ _ _ Hl).
    rewrite Hl in Hv. apply Forall_app in Hv as [Hv Hp].
    apply Forall_inv in Hp as [Hpt Hpc].
    repeat split; simpl; try done. by apply push_filled.
  - destruct (decide (versions n = [])) as [He|Hne]; [by rewrite undo_empty|].
    destruct (nonempty_snoc _ Hne) as (l & p & Hl).
    by rewrite (undo_top _ _ _ _ Hl).
Qed.

Lemma redo_sound (now : Z) (n : Note) : sound n → sound (snd (redo now n)).
Proof.
  intros (Hs & (Ht & Hc & Hv & Hr) & Hb & Hbin).
  split; [by apply redo_stable|].
  split; [|split; [by apply (perform_shares_bound n (Redo now))|]].
  - destruct (decide (redoStack n = [])) as [He|Hne]; [by rewrite redo_empty|].
    destruct (nonempty_snoc _ Hne) as (l & p & Hl).
    rewrite (redo_top _ _ _ _ Hl).
    rewrite Hl in Hr. apply Forall_app in Hr as [Hr Hp].
    apply Forall_inv in Hp as [Hpt Hpc].
    repeat split; simpl; try done. by apply push_filled.
  - destruct (decide (redoStack n = [])) as [He|Hne]; [by rewrite redo_empty|].
    destruct (nonempty_snoc _ Hne) as (l & p & Hl).
    by rewrite (redo_top _ _ _ _ Hl).
Qed.

Lemma Note_create_sound (now : Z) (t c : jsstring) :
  trim t ≠ [] → trim c ≠ [] → sound (Note_create now (trim t) (trim c)).
Proof.
  intros Ht Hc. split; [apply Note_create_stable|].
  repeat split; simpl; try done; try apply Forall_nil_2.
  unfold stacksShareBound. simpl. lia.
Qed.

Lemma set_updatedAt_sound (stamp : Z) (n : Note) :
  sound n → sound (set_updatedAt stamp n).
Proof. done. Qed.

Lemma trash_sound (now : Z) (n : Note) :
  sound n → sound (set_deletedAt (Some now) (set_isDeleted true n)).
Proof.
  intros (Hs & Hf & Hb & Hbin). repeat split; try apply Hs; try apply Hf; try done.
Qed.

Lemma restore_sound (n : Note) :
  sound n → sound (set_deletedAt None (set_isDeleted false n)).
Proof.
  intros (Hs & Hf & Hb & Hbin). repeat split; try apply Hs; try apply Hf; try done.
Qed.

Lemma serve_sound (P : jsstring → option Z) (db : Db) (r : Request) :
  map_Forall (λ _ n, sound n) db →
  map_Forall (λ _ n, sound n) (snd (serve P db r)).
Proof.
  intros Hdb.
  assert (Hsave : ∀ stamp id n, sound n →
            map_Forall (λ _ n, sound n) (snd (save stamp id n db))).
  { intros stamp id n Hn.
    destruct (save_shape stamp id n db) as [-> | ->]; [done|].
    by apply map_Forall_insert_2. }
  destruct r as [oid now body | now stamp id body | now stamp id | now stamp id
                | now stamp id | stamp id | id]; simpl.
  - destruct (postNote_shape oid now body db)
      as [(_ & _ & ->) | (t & c & Ht & Hc & _ & ->)]; [done|].
    apply map_Forall_insert_2; [|done]. by apply Note_create_sound.
  - destruct (patchNote_shape P now stamp id body db)
      as [[_ ->] | (note & u & Hl & _ & _ & Ht & Hc & ->)]; [done|]. simpl.
    apply Hsave, applyUpdate_sound; try done. by apply (Hdb id).
  - unfold undoNote.
    destruct (historyRoute_shape (undo now) stamp id db)
      as [[_ ->] | (note & note' & Hl & _ & Hop & ->)]; [done|]. simpl.
    apply Hsave. replace note' with (snd (undo now note)) by (by rewrite Hop).
    apply undo_sound. by apply (Hdb id).
  - unfold redoNote.
    destruct (historyRoute_shape (redo now) stamp id db)
      as [[_ ->] | (note & note' & Hl & _ & Hop & ->)]; [done|]. simpl.
    apply Hsave. replace note' with (snd (redo now note)) by (by rewrite Hop).
    apply redo_sound. by apply (Hdb id).
  - destruct (trashNote_shape now stamp id db) as [[_ ->] | (note & Hl & _ & _ & ->)];
      [done|].
    apply map_Forall_insert_2; [|done].
    apply set_updatedAt_sound, trash_sound. by apply (Hdb id).
  - destruct (restoreNote_shape stamp id db) as [[_ ->] | (note & Hl & _ & _ & ->)];
      [done|].
    apply map_Forall_insert_2; [|done].
    apply set_updatedAt_sound, restore_sound. by apply (Hdb id).
  - unfold deletePermanent. destruct (db !! id); [|done].
    by apply map_Forall_delete.
Qed.

(** X9. What the routes keep true of the collection: after any sequence of
    requests on an empty collection, every stored note has a title and a
    content that are trimmed and not empty, as has every snapshot of its
    stacks; its two stacks hold at most 20 snapshots together; and it is
    marked deleted exactly when it has a deletion date. *)
Theorem collection_is_sound (P : jsstring → option Z) (reqs : list Request) :
  map_Forall (λ _ n, sound n) (serveAll P reqs ∅).
Proof.
  unfold serveAll.
  assert (H : ∀ db, map_Forall (λ _ n, sound n) db →
            map_Forall (λ _ n, sound n)
              (fold_left (λ db r, snd (serve P db r)) reqs db)).
  { induction reqs as [|r reqs IH]; intros db Hdb; [done|].
    simpl. by apply IH, serve_sound. }
  apply H, map_Forall_empty.
Qed.

(** ** The history route *)

(** X10. [GET /:id/history] tells what undo and redo will answer: when it
    reports a note, the undo route answers 200 if [canUndo] and 400 if not,
    the redo route 200 if [canRedo] and 400 if not, and each flag says that
    its count is not zero; when it answers 404, so do both routes. *)
Theorem history_tells_undo_redo (now stamp : Z) (id : N) (db : Db) :
  match getHistory id db with
  | Answer code info =>
      code = 200
      ∧ status (fst (undoNote now stamp id db)) = (if canUndo info then 200 else 400)
      ∧ status (fst (redoNote now stamp id db)) = (if canRedo info then 200 else 400)
      ∧ (canUndo info = true ↔ undoCount info ≠ 0%nat)
      ∧ (canRedo info = true ↔ redoCount info ≠ 0%nat)
  | Refusal code _ =>
      code = 404
      ∧ status (fst (undoNote now stamp id db)) = 404
      ∧ status (fst (redoNote now stamp id db)) = 404
  end.
Proof.
  unfold getHistory, undoNote, redoNote, historyRoute, loadNote.
  destruct (db !! id) as [note|]; [|done].
  destruct (isDeleted note); [done|]. simpl.
  split; [done|]. split; [|split; [|split]].
  - destruct (decide (versions note = [])) as [He|Hne].
    + by rewrite undo_empty, He.
    + destruct (nonempty_snoc _ Hne) as (l & p & Hl).
      rewrite (undo_top _ _ _ _ Hl), Hl, length_app. simpl.
      by replace (0 <? length l + 1)%nat with true
        by (symmetry; apply Nat.ltb_lt; lia).
  - destruct (decide (redoStack note = [])) as [He|Hne].
    + by rewrite redo_empty, He.
    + destruct (nonempty_snoc _ Hne) as (l & p & Hl).
      rewrite (redo_top _ _ _ _ Hl), Hl, length_app. simpl.
      by replace (0 <? length l + 1)%nat with true
        by (symmetry; apply Nat.ltb_lt; lia).
  - rewrite Nat.ltb_lt. lia.
  - rewrite Nat.ltb_lt. lia.
Qed.

(** ** Documents that are gone or in the bin *)

Lemma absent_404 (P : jsstring → option Z) (db : Db) (r : Request) :
  db !! target r = None → namesDocument r = true →
  status (fst (serve P db r)) = 404 ∧ snd (serve P db r) = db.
Proof.
  intros Hl Hr.
  destruct r as [oid now body | now stamp id body | now stamp id | now stamp id
                | now stamp id | stamp id | id]; simpl in *; try discriminate;
    unfold patchNote, undoNote, redoNote, historyRoute, trashNote, loadNote,
      restoreNote, deletePermanent; by rewrite Hl.
Qed.

(** X11. A permanent delete is final: whatever the collection held, after
    [DELETE /:id/permanent] the document is absent, the history route and
    every writing route that names it (edit, undo, redo, trash, restore,
    delete) answer 404, and the collection stays as the delete left it. *)
Theorem permanent_delete_is_final (P : jsstring → option Z) (id : N) (db : Db)
    (r : Request) :
  target r = id → namesDocument r = true →
  snd (deletePermanent id db) !! id = None
  ∧ getHistory id (snd (deletePermanent id db)) = Refusal 404 "Nota no encontrada"
  ∧ status (fst (serve P (snd (deletePermanent id db)) r)) = 404
  ∧ snd (serve P (snd (deletePermanent id db)) r) = snd (deletePermanent id db).
Proof.
  intros Ht Hr.
  assert (Hgone : snd (deletePermanent id db) !! id = None).
  { unfold deletePermanent. destruct (db !! id) eqn:Hl; simpl; [|done].
    apply lookup_delete_eq. }
  split; [done|]. split.
  - unfold getHistory. by rewrite Hgone.
  - apply absent_404; [by rewrite Ht | done].
Qed.

Lemma permanent_delete_is_final_witness :
  snd (deletePermanent 7 editedDb) !! 7%N = None
  ∧ getHistory 7 (snd (deletePermanent 7 editedDb)) = Refusal 404 "Nota no encontrada"
  ∧ status (fst (serve Date_parse_sample (snd (deletePermanent 7 editedDb))
                   (PATCH_undo 3000 3500 7))) = 404
  ∧ snd (serve Date_parse_sample (snd (deletePermanent 7 editedDb))
           (PATCH_undo 3000 3500 7))
    = snd (deletePermanent 7 editedDb).
Proof.
  apply (permanent_delete_is_final Date_parse_sample 7 editedDb (PATCH_undo 3000 3500 7));
    reflexivity.
Defined.

Lemma deleted_404 (P : jsstring → option Z) (db : Db) (r : Request) (n : Note) :
  db !! target r = Some n → isDeleted n = true → throughLoadNote r = true →
  status (fst (serve P db r)) = 404 ∧ snd (serve P db r) = db.
Proof.
  intros Hl Hd Hr.
  destruct r as [oid now body | now stamp id body | now stamp id | now stamp id
                | now stamp id | stamp id | id]; simpl in *; try discriminate;
    unfold patchNote, undoNote, redoNote, historyRoute, trashNote, loadNote;
    by rewrite Hl, Hd.
Qed.

(** X12. A note in the bin is locked: once the trash route has answered
    200, the edit, undo, redo and trash routes and the history route answer
    404 for that note, and leave the collection as the trash route left
    it. *)
Theorem trashed_note_is_locked (P : jsstring → option Z) (now stamp : Z) (id : N)
    (db : Db) (r : Request) :
  status (fst (trashNote now stamp id db)) = 200 →
  target r = id → throughLoadNote r = true →
  getHistory id (snd (trashNote now stamp id db)) = Refusal 404 "Nota no encontrada"
  ∧ status (fst (serve P (snd (trashNote now stamp id db)) r)) = 404
  ∧ snd (serve P (snd (trashNote now stamp id db)) r) = snd (trashNote now stamp id db).
Proof.
  intros Hs Ht Hr.
  destruct (trashNote_shape now stamp id db) as [[H404 _] | (note & _ & _ & _ & Heq)];
    [by rewrite H404 in Hs|].
  rewrite Heq. split.
  - unfold getHistory. by rewrite lookup_insert_eq.
  - eapply deleted_404; [rewrite Ht; apply lookup_insert_eq | done | done].
Qed.

Lemma trashed_note_is_locked_witness :
  getHistory 7 (snd (trashNote 5000 5500 7 editedDb))
    = Refusal 404 "Nota no encontrada"
  ∧ status (fst (serve Date_parse_sample (snd (trashNote 5000 5500 7 editedDb))
                   (PATCH 6000 6500 7 bodyB))) = 404
  ∧ snd (serve Date_parse_sample (snd (trashNote 5000 5500 7 editedDb))
           (PATCH 6000 6500 7 bodyB))
    = snd (trashNote 5000 5500 7 editedDb).
Proof.
  apply (trashed_note_is_locked Date_parse_sample 5000 5500 7 editedDb
           (PATCH 6000 6500 7 bodyB)); reflexivity.
Defined.

(** X13. Trash and restore round trip: for a stored note that is not
    deleted, the trash route answers 200 and stores the note marked deleted
    with the time of the request as its deletion date; the restore route
    then answers 200 and leaves the collection it all started from, the
    note as it was but for a cleared deletion date and its [updatedAt]. *)
Theorem trash_then_restore (now stamp1 stamp2 : Z) (id : N) (db : Db) (n : Note) :
  db !! id = Some n → isDeleted n = false →
  status (fst (trashNote now stamp1 id db)) = 200
  ∧ (∃ u, snd (trashNote now stamp1 id db) !! id
          = Some (set_updatedAt u (set_deletedAt (Some now) (set_isDeleted true n))))
  ∧ status (fst (restoreNote stamp2 id (snd (trashNote now stamp1 id db)))) = 200
  ∧ ∃ u, snd (restoreNote stamp2 id (snd (trashNote now stamp1 id db)))
         = <[id := set_updatedAt u (set_deletedAt None n)]> db.
Proof.
  intros Hl Hd.
  destruct (trashNote_shape now stamp1 id db)
    as [[H404 _] | (note & Hl' & _ & H200 & Heq)].
  { unfold trashNote, loadNote in H404. by rewrite Hl, Hd in H404. }
  rewrite Hl in Hl'. injection Hl' as <-.
  split; [done|]. rewrite Heq. split.
  { exists stamp1. apply lookup_insert_eq. }
  destruct (restoreNote_shape stamp2 id
              (<[id := set_updatedAt stamp1
                         (set_deletedAt (Some now) (set_isDeleted true n))]> db))
    as [[H404 _] | (note & Hl' & _ & H200' & Heq')].
  { unfold restoreNote, save in H404. rewrite lookup_insert_eq in H404.
    simpl in H404. by case_bool_decide. }
  rewrite lookup_insert_eq in Hl'. injection Hl' as <-.
  split; [done|]. exists stamp2. rewrite Heq', insert_insert_eq.
  f_equal. destruct n. simpl in *. by subst.
Qed.

Lemma trash_then_restore_witness :
  status (fst (trashNote 5000 5500 7 editedDb)) = 200
  ∧ (∃ u, snd (trashNote 5000 5500 7 editedDb) !! 7%N
          = Some (set_updatedAt u (set_deletedAt (Some 5000) (set_isDeleted true noteB))))
  ∧ status (fst (restoreNote 6500 7 (snd (trashNote 5000 5500 7 editedDb)))) = 200
  ∧ ∃ u, snd (restoreNote 6500 7 (snd (trashNote 5000 5500 7 editedDb)))
         = <[7%N := set_updatedAt u (set_deletedAt None noteB)]> editedDb.
Proof.
  apply (trash_then_restore 5000 5500 6500 7 editedDb noteB).
  - vm_compute. reflexivity.
  - reflexivity.
Defined.

(** ** An edit and the requests that follow it *)

Lemma patchNote_changed (P : jsstring → option Z) (now stamp : Z) (id : N)
    (body : Body) (db : Db) (note n' : Note) :
  db !! id = Some note →
  snd (patchNote P now stamp id body db) !! id = Some n' →
  title n' ≠ title note ∨ content n' ≠ content note →
  isDeleted n' = false ∧ redoStack n' = [] ∧ updatedAt n' = stamp.
Proof.
  intros Hl Hl' Hdiff.
  pose proof (patchNote_stamps P now stamp id body db note n' Hl Hl' Hdiff) as Hu.
  destruct (patchNote_shape P now stamp id body db)
    as [[_ Heq] | (note0 & u & Hl0 & Hd & _ & _ & _ & Heq)];
    rewrite Heq in Hl'; simpl in Hl'.
  { rewrite Hl in Hl'. injection Hl' as <-. by destruct Hdiff. }
  rewrite Hl in Hl0. injection Hl0 as <-.
  rewrite save_lookup in Hl'. injection Hl' as Hn'.
  assert (Hn : n' = snd (applyUpdate now u note)
               ∨ n' = set_updatedAt stamp (snd (applyUpdate now u note))).
  { destruct (save_result stamp id (snd (applyUpdate now u note)) db) as [Hr | Hr];
      rewrite Hr in Hn'; [by left | by right]. }
  destruct (applyUpdate_cases now u note) as [[_ Hsame] | [Hchg _]].
  { rewrite Hsame in Hn. simpl in Hn.
    destruct Hn as [-> | ->]; by destruct Hdiff. }
  rewrite applyUpdate_changed in Hn by done. simpl in Hn.
  by destruct Hn as [-> | ->].
Qed.

(** X15. A new edit kills redo, seen from the routes: when an edit request
    has changed the stored title or content of a note, a redo request on
    that note is answered 400 with "No hay cambios para rehacer", whatever
    was undone before, and changes nothing. *)
Theorem edit_then_redo_refused (P : jsstring → option Z) (now stamp now' stamp' : Z)
    (id : N) (body : Body) (db : Db) (note n' : Note) :
  db !! id = Some note →
  snd (patchNote P now stamp id body db) !! id = Some n' →
  title n' ≠ title note ∨ content n' ≠ content note →
  redoNote now' stamp' id (snd (patchNote P now stamp id body db))
  = (mkResponse 400 (Message NoRedo), snd (patchNote P now stamp id body db)).
Proof.
  intros Hl Hl' Hdiff.
  destruct (patchNote_changed P now stamp id body db note n' Hl Hl' Hdiff)
    as (Hd & Hr & _).
  unfold redoNote, historyRoute, loadNote. rewrite Hl', Hd.
  by rewrite redo_empty.
Qed.

Lemma edit_then_redo_refused_witness :
  redoNote 7000 7500 7
    (snd (patchNote Date_parse_sample 6000 6500 7
            (mkBody (JStr (js "C")) JUndefined JUndefined)
            (snd (undoNote 3000 3500 7 editedDb))))
  = (mkResponse 400 (Message NoRedo),
     snd (patchNote Date_parse_sample 6000 6500 7
            (mkBody (JStr (js "C")) JUndefined JUndefined)
            (snd (undoNote 3000 3500 7 editedDb)))).
Proof.
  eapply (edit_then_redo_refused Date_parse_sample 6000 6500 7000 7500 7
            (mkBody (JStr (js "C")) JUndefined JUndefined)
            (snd (undoNote 3000 3500 7 editedDb))).
  - vm_compute. reflexivity.
  - vm_compute. reflexivity.
  - left. vm_compute. discriminate.
Defined.

(** X16. The optimistic check after an edit, as the test "Debe rechazar
    edición con lastKnownUpdate viejo" has it: when an edit request has
    changed the stored title or content of a note and was saved at a time
    other than the note's former [updatedAt], a later edit request that
    sends a field and, as [lastKnownUpdate], a truthy value dating that
    former [updatedAt] is answered 409 and changes nothing. *)
Theorem stale_after_edit (P : jsstring → option Z) (now stamp now' stamp' : Z)
    (id : N) (body body' : Body) (db : Db) (note n' : Note) :
  db !! id = Some note →
  snd (patchNote P now stamp id body db) !! id = Some n' →
  title n' ≠ title note ∨ content n' ≠ content note →
  stamp ≠ updatedAt note →
  isUndefined (b_title body') && isUndefined (b_content body') = false →
  truthy (b_lastKnownUpdate body') = true →
  dateValue P (b_lastKnownUpdate body') = Some (updatedAt note) →
  patchNote P now' stamp' id body' (snd (patchNote P now stamp id body db))
  = (mkResponse 409
       (Message "La nota fue modificada previamente, recarga antes de editar"),
     snd (patchNote P now stamp id body db)).
Proof.
  intros Hl Hl' Hdiff Hstamp Hf Ht Hdate.
  destruct (patchNote_changed P now stamp id body db note n' Hl Hl' Hdiff)
    as (Hd & _ & Hu).
  unfold patchNote at 1. unfold loadNote. rewrite Hl', Hd, Hf.
  unfold staleWrite. rewrite Ht, Hdate, Hu. simpl.
  rewrite bool_decide_eq_true_2; [done|]. congruence.
Qed.

Lemma stale_after_edit_witness :
  patchNote Date_parse_sample 4000 4500 7 (bodyB_at date1000)
    (snd (patchNote Date_parse_sample 2000 2500 7 bodyB sampleDb))
  = (mkResponse 409
       (Message "La nota fue modificada previamente, recarga antes de editar"),
     snd (patchNote Date_parse_sample 2000 2500 7 bodyB sampleDb)).
Proof.
  eapply (stale_after_edit Date_parse_sample 2000 2500 4000 4500 7 bodyB
            (bodyB_at date1000) sampleDb noteA).
  - vm_compute. reflexivity.
  - vm_compute. reflexivity.
  - left. vm_compute. discriminate.
  - vm_compute. discriminate.
  - reflexivity.
  - reflexivity.
  - vm_compute. reflexivity.
Defined.

(** ** Creation *)

(** X17. A created note has no history: when the creation route answers
    201, the title and the content of the body are strings, the note is
    stored under the new identifier with both trimmed, the history route
    reports nothing to undo or redo, and the undo and redo routes are
    answered 400 with their "no changes" message, the collection
    unchanged. *)
Theorem created_note_has_no_history (oid : N) (now now' stamp' : Z) (body : Body)
    (db : Db) :
  status (fst (postNote oid now body db)) = 201 →
  (∃ t c, b_title body = JStr t ∧ b_content body = JStr c
          ∧ snd (postNote oid now body db) !! oid
            = Some (Note_create now (trim t) (trim c)))
  ∧ getHistory oid (snd (postNote oid now body db))
    = Answer 200 (mkHistoryInfo false false 0 0 now)
  ∧ undoNote now' stamp' oid (snd (postNote oid now body db))
    = (mkResponse 400 (Message NoUndo), snd (postNote oid now body db))
  ∧ redoNote now' stamp' oid (snd (postNote oid now body db))
    = (mkResponse 400 (Message NoRedo), snd (postNote oid now body db)).
Proof.
  unfold postNote.
  destruct (b_title body) as [| |b|z|t]; simpl; try discriminate.
  case_bool_decide; [discriminate|].
  destruct (b_content body) as [| |b|z|c]; simpl; try discriminate.
  case_bool_decide; [discriminate|].
  simpl. intros _.
  split; [exists t, c; by rewrite lookup_insert_eq|].
  unfold getHistory, undoNote, redoNote, historyRoute, loadNote.
  by rewrite lookup_insert_eq.
Qed.

Lemma created_note_has_no_history_witness :
  (∃ t c, b_title bodyCreate = JStr t ∧ b_content bodyCreate = JStr c
          ∧ snd (postNote 7 1000 bodyCreate ∅) !! 7%N
            = Some (Note_create 1000 (trim t) (trim c)))
  ∧ getHistory 7 (snd (postNote 7 1000 bodyCreate ∅))
    = Answer 200 (mkHistoryInfo false false 0 0 1000)
  ∧ undoNote 3000 3500 7 (snd (postNote 7 1000 bodyCreate ∅))
    = (mkResponse 400 (Message NoUndo), snd (postNote 7 1000 bodyCreate ∅))
  ∧ redoNote 3000 3500 7 (snd (postNote 7 1000 bodyCreate ∅))
    = (mkResponse 400 (Message NoRedo), snd (postNote 7 1000 bodyCreate ∅)).
Proof.
  apply (created_note_has_no_history 7 1000 3000 3500 bodyCreate ∅). reflexivity.
Defined.

(** ** The earlier revision on a first edit *)

(** X18. The extra undo step of the earlier revision: on a note whose undo
    stack is empty, an [applyUpdate] of that revision that changes no field
    still makes an undo possible; the undo returns, leaves the title and
    the content as they were, and leaves one snapshot to redo. With the
    later revision the same undo throws. *)
Theorem first_edit_extra_undo (now now' : Z) (u : Updates) (n : Note) :
  versions n = [] →
  hasChange (u_title u) (title n) || hasChange (u_content u) (content n) = false →
  fst (undo now' (snd (FirstEdit.applyUpdate now u n))) = Normal tt
  ∧ contentView (snd (undo now' (snd (FirstEdit.applyUpdate now u n))))
    = (title n, content n, [], [(title n, content n)])
  ∧ undo now' (snd (applyUpdate now u n)) = (Throw NoUndo, n).
Proof.
  intros Hv Hchg.
  assert (Hfirst : snd (FirstEdit.applyUpdate now u n)
                   = mkNote (title n) (content n) [createSnapshot now n] []
                       (isDeleted n) (deletedAt n) (createdAt n) (updatedAt n)).
  { rewrite FirstEdit_unchanged by done. by rewrite Hv. }
  assert (Hlater : snd (applyUpdate now u n) = n).
  { apply orb_false_elim in Hchg as [Ht Hc]. by rewrite applyUpdate_unchanged. }
  rewrite Hfirst, Hlater.
  rewrite (undo_top now' _ [] (createSnapshot now n)) by done.
  split; [done|]. split; [done|]. by apply undo_empty.
Qed.

Lemma first_edit_extra_undo_witness :
  fst (undo 3000 (snd (FirstEdit.applyUpdate 2000 sameA noteA))) = Normal tt
  ∧ contentView (snd (undo 3000 (snd (FirstEdit.applyUpdate 2000 sameA noteA))))
    = (title noteA, content noteA, [], [(title noteA, content noteA)])
  ∧ undo 3000 (snd (applyUpdate 2000 sameA noteA)) = (Throw NoUndo, noteA).
Proof.
  apply (first_edit_extra_undo 2000 3000 sameA noteA); reflexivity.
Defined.

(** ** Edit, undo and redo through the routes *)

Lemma historyRoute_run (op : Js unit) (stamp : Z) (id : N) (db : Db) (n n2 : Note) :
  db !! id = Some n → isDeleted n = false → op n = (Normal tt, n2) →
  ∃ m, historyRoute op stamp id db
       = (mkResponse 200 (Document (Some m)), snd (save stamp id n2 db))
     ∧ snd (save stamp id n2 db) !! id = Some m
     ∧ (m = n2 ∨ m = set_updatedAt stamp n2).
Proof.
  intros Hl Hd Hop. exists (fst (save stamp id n2 db)).
  unfold historyRoute, loadNote. rewrite Hl, Hd, Hop. simpl.
  rewrite save_lookup. repeat split. apply save_result.
Qed.

Lemma patchNote_changed_stacks (P : jsstring → option Z) (now stamp : Z) (id : N)
    (body : Body) (db : Db) (note n' : Note) :
  db !! id = Some note →
  snd (patchNote P now stamp id body db) !! id = Some n' →
  title n' ≠ title note ∨ content n' ≠ content note →
  versions n' = limitStack (versions note ++ [createSnapshot now note]).
Proof.
  intros Hl Hl' Hdiff.
  destruct (patchNote_shape P now stamp id body db)
    as [[_ Heq] | (note0 & u & Hl0 & Hd & _ & _ & _ & Heq)];
    rewrite Heq in Hl'; simpl in Hl'.
  { rewrite Hl in Hl'. injection Hl' as <-. by destruct Hdiff. }
  rewrite Hl in Hl0. injection Hl0 as <-.
  rewrite save_lookup in Hl'. injection Hl' as Hn'.
  assert (Hn : n' = snd (applyUpdate now u note)
               ∨ n' = set_updatedAt stamp (snd (applyUpdate now u note))).
  { destruct (save_result stamp id (snd (applyUpdate now u note)) db) as [Hr | Hr];
      rewrite Hr in Hn'; [by left | by right]. }
  destruct (applyUpdate_cases now u note) as [[_ Hsame] | [Hchg _]].
  { rewrite Hsame in Hn. simpl in Hn.
    destruct Hn as [-> | ->]; by destruct Hdiff. }
  rewrite applyUpdate_changed in Hn by done. simpl in Hn.
  by destruct Hn as [-> | ->].
Qed.

(** X19. The basic flow of the tests, for any note: when an edit request
    has changed the stored title or content of a note, an undo request is
    answered 200 with the note carrying the title and the content it had
    before the edit, and a redo request after it is answered 200 with the
    note carrying those the edit stored. *)
Theorem edit_undo_redo_routes (P : jsstring → option Z)
    (now stamp t1 s1 t2 s2 : Z) (id : N) (body : Body) (db : Db) (note n' : Note) :
  db !! id = Some note →
  snd (patchNote P now stamp id body db) !! id = Some n' →
  title n' ≠ title note ∨ content n' ≠ content note →
  ∃ n1 n2,
    fst (undoNote t1 s1 id (snd (patchNote P now stamp id body db)))
    = mkResponse 200 (Document (Some n1))
    ∧ title n1 = title note ∧ content n1 = content note
    ∧ fst (redoNote t2 s2 id
             (snd (undoNote t1 s1 id (snd (patchNote P now stamp id body db)))))
      = mkResponse 200 (Document (Some n2))
    ∧ title n2 = title n' ∧ content n2 = content n'.
Proof.
  intros Hl Hl' Hdiff.
  destruct (patchNote_changed P now stamp id body db note n' Hl Hl' Hdiff)
    as (Hd & Hr & _).
  pose proof (patchNote_changed_stacks P now stamp id body db note n' Hl Hl' Hdiff)
    as Hv.
  destruct (limitStack_snoc (versions note) (createSnapshot now note)) as (l & Hsn & _).
  rewrite Hsn in Hv.
  set (db1 := snd (patchNote P now stamp id body db)) in *.
  destruct (historyRoute_run (undo t1) s1 id db1 n' _ Hl' Hd (undo_top t1 n' l _ Hv))
    as (n1 & Hundo & Hl1 & Hn1).
  unfold undoNote. rewrite Hundo. cbn [fst snd].
  assert (Hd1 : isDeleted n1 = false) by (by destruct Hn1 as [-> | ->]).
  assert (Hr1 : redoStack n1 = [] ++ [createSnapshot t1 n']).
  { destruct Hn1 as [-> | ->]; simpl; by rewrite Hr. }
  destruct (historyRoute_run (redo t2) s2 id _ n1 _ Hl1 Hd1 (redo_top t2 n1 [] _ Hr1))
    as (n2 & Hredo & _ & Hn2).
  unfold redoNote. rewrite Hredo. cbn [fst snd].
  exists n1, n2. repeat split.
  - by destruct Hn1 as [-> | ->].
  - by destruct Hn1 as [-> | ->].
  - by destruct Hn2 as [-> | ->].
  - by destruct Hn2 as [-> | ->].
Qed.

Lemma edit_undo_redo_routes_witness :
  ∃ n1 n2,
    fst (undoNote 3000 3500 7
           (snd (patchNote Date_parse_sample 2000 2500 7 bodyB sampleDb)))
    = mkResponse 200 (Document (Some n1))
    ∧ title n1 = title noteA ∧ content n1 = content noteA
    ∧ fst (redoNote 4000 4500 7
             (snd (undoNote 3000 3500 7
                     (snd (patchNote Date_parse_sample 2000 2500 7 bodyB sampleDb)))))
      = mkResponse 200 (Document (Some n2))
    ∧ title n2 = title noteB ∧ content n2 = content noteB.
Proof.
  apply (edit_undo_redo_routes Date_parse_sample 2000 2500 3000 3500 4000 4500 7
           bodyB sampleDb noteA noteB).
  - vm_compute. reflexivity.
  - vm_compute. reflexivity.
  - left. vm_compute. discriminate.
Defined.

(** ** Each stack on its own *)

(** X20. Each stack within the bound: when neither stack of a note holds
    more than 20 snapshots, neither does after any sequence of
    [applyUpdate], [undo] and [redo] calls, whatever the two hold
    together. *)
Theorem service_keeps_stacks_bounded (ops : list Op) (n : Note) :
  (length (versions n) ≤ 20)%nat → (length (redoStack n) ≤ 20)%nat →
  (length (versions (performAll ops n)) ≤ 20)%nat
  ∧ (length (redoStack (performAll ops n)) ≤ 20)%nat.
Proof.
  intros Hv Hr. apply (performAll_bounded ops n). by split.
Qed.

Lemma service_keeps_stacks_bounded_witness :
  (length (versions (performAll [Undo 3000; Edit 4000 titleB] crowdedNote)) ≤ 20)%nat
  ∧ (length (redoStack (performAll [Undo 3000; Edit 4000 titleB] crowdedNote)) ≤ 20)%nat.
Proof.
  apply (service_keeps_stacks_bounded [Undo 3000; Edit 4000 titleB] crowdedNote);
    simpl; lia.
Defined.
